(** * Dynamic load balancing for a smart grid: model and verified properties

    A shallow embedding of the three stateful classes of the repository:

    - [SubstationState]      (substation_service/main.py)
    - [LoadBalancer]         (load_balancer/main.py)
    - [ChargeRequestService] (charge_request_service/main.py)

    Conventions of the embedding.

    - Every method body runs under the object's [threading.Lock], so a method
      is one atomic transition: a function from the state before the call to
      the returned value and the state after it.
    - [time.time()] and the HTTP peers are inputs of the transition: clock
      readings and responses are arguments of the functions below.
    - Python [int]s are [Z]; the kW of a charge request and the load of a
      substation are [int]s in [Substation].  What changes when a request
      carries a float is shown in [SubstationFloat], on binary64 floats.
    - In [LoadBalancer] the numbers read from a metrics page with
      [float(...)] are finite and exact: rationals ([Qc]), without rounding.
      The selector compares cached percentages, and a page can carry
      [NaN]; [TelemetryFloats] is the selector over every value a float can
      take, and agrees with the one of [LoadBalancer] on finite caches.
    - Logging and the Prometheus instruments (counters, gauges, histograms)
      are write-only observers of the state and are left out.
    - A [dict] whose iteration order is observed by the code (the telemetry
      cache, iterated by [min]) is an association list in insertion order; a
      [dict] only used by key is a [gmap]. *)

From Stdlib Require Import ZArith QArith Qcanon Ascii PrimFloat.
From stdpp Require Import gmap strings list fin_maps pretty.

Local Open Scope Z_scope.

(** ** Python built-ins used by the services *)

Module Py.

(** [str.split(sep)] for a one-character separator: every occurrence of
    the separator cuts, empty fields are kept, and the result is never
    empty. *)
Fixpoint split (sep : ascii) (s : string) : list string :=
  match s with
  | EmptyString => [EmptyString]
  | String c s' =>
      if decide (c = sep) then EmptyString :: split sep s'
      else match split sep s' with
           | [] => [String c EmptyString]
           | w :: ws => String c w :: ws
           end
  end.

(** [s.startswith(p)] *)
Fixpoint startswith (p s : string) : bool :=
  match p, s with
  | EmptyString, _ => true
  | String a p', String b s' => if decide (a = b) then startswith p' s' else false
  | String _ _, EmptyString => false
  end.

(** [int(x)] on a float: truncation towards zero. *)
Definition int (x : Qc) : Z := Z.quot (Qnum x) (Z.pos (Qden x)).

(** [x in xs] on a list of strings. *)
Definition contains (x : string) (xs : list string) : bool :=
  bool_decide (x ∈ xs).

(** [xs.remove(x)]: drops the first occurrence ([ValueError] when there is
    none; the callers test membership first). *)
Fixpoint remove (x : string) (xs : list string) : list string :=
  match xs with
  | [] => []
  | y :: ys => if decide (y = x) then ys else y :: remove x ys
  end.

(** [min(xs, key=key)] once the first element [best] has been taken: a
    later element replaces the running minimum only when its key is
    strictly smaller. *)
Fixpoint min_from {A} (key : A → Qc) (best : A) (xs : list A) : A :=
  match xs with
  | [] => best
  | x :: xs' =>
      min_from key (if bool_decide (key x < key best)%Qc then x else best) xs'
  end.

(** What a call of the [requests] library yields: a response with its
    status code and body, or a raised exception (timeout, connection
    error) with its message. *)
Inductive http_result :=
| Response (status_code : Z) (text : string)
| Raised (msg : string).

End Py.

(** ** Insertion-ordered dictionaries

    A Python [dict] iterates in the order in which its keys were first
    inserted; assigning to a key that is present keeps its position. *)

Module Dict.
Section dict.
Context {V : Type}.

(** [d.get(k)] *)
Fixpoint get (k : string) (d : list (string * V)) : option V :=
  match d with
  | [] => None
  | (k', v) :: d' => if decide (k' = k) then Some v else get k d'
  end.

(** [d[k] = v] *)
Fixpoint set (k : string) (v : V) (d : list (string * V)) : list (string * V) :=
  match d with
  | [] => [(k, v)]
  | (k', v') :: d' =>
      if decide (k' = k) then (k, v) :: d' else (k', v') :: set k v d'
  end.

(** [del d[k]] (the callers test [k in d] first).  The keys of a dict are
    distinct, so this takes out the one binding of [k]. *)
Fixpoint del (k : string) (d : list (string * V)) : list (string * V) :=
  match d with
  | [] => []
  | (k', v') :: d' =>
      if decide (k' = k) then del k d' else (k', v') :: del k d'
  end.

(** [list(d)] *)
Definition keys (d : list (string * V)) : list string := d.*1.

End dict.
End Dict.

(** ** JSON on the wire

    The JSON objects the services exchange, by the keys the code reads and
    writes; [None] is an absent key.  Strings are the values of the string
    keys and integers those of the numeric ones. *)

Module Wire.

(** The body of [POST /charge]: [{'ev_id': ..., 'requested_kw': ...}], for
    an [ev_id] that is a string and a [requested_kw] that is an integer when
    they are present. *)
Record charge_request := {
  ev_id : option string;
  requested_kw : option Z
}.

(** A reply body that is a JSON object: [{'session_id', 'status',
    'substation_id'}] on success, [{'error': ...}] on failure, with string
    values but for the integer [substation_id]. *)
Record reply := {
  session_id : option string;
  status : option string;
  substation_id : option Z;
  error : option string
}.

(** [{'error': msg}] *)
Definition error_reply (msg : string) : reply :=
  {| session_id := None; status := None; substation_id := None;
     error := Some msg |}.

(** What a call of [requests] to a JSON endpoint yields: a response with
    its status code and the outcome of [response.json()] (the decoded object,
    or the message of the exception it raises), or a raised exception. *)
Inductive json_result :=
| JsonResponse (status_code : Z) (json : reply + string)
| JsonRaised (msg : string).

(** Truth value of [x] in [if x:] / [if not x:] for an optional string:
    [None] and the empty string are false. *)
Definition truthy (x : option string) : bool :=
  match x with
  | Some EmptyString | None => false
  | Some _ => true
  end.

End Wire.

(** ** substation_service/main.py: [SubstationState] *)

Module Substation.

(** One value of [charging_sessions]; [status] is the constant
    ['charging'] in the source. *)
Record session := {
  ev_id : string;
  requested_kw : Z;
  start_time : Qc;
  status : string
}.

Record state := {
  substation_id : Z;
  max_capacity : Z;
  current_load : Z;
  active_chargers : Z;
  charging_sessions : gmap string session
}.

(** [SubstationState.__init__] *)
Definition init (sid cap : Z) : state :=
  {| substation_id := sid; max_capacity := cap; current_load := 0;
     active_chargers := 0; charging_sessions := ∅ |}.

(** [f"{self.substation_id}_{ev_id}_{int(time.time())}"] *)
Definition make_session_id (sid : Z) (ev : string) (now : Qc) : string :=
  pretty sid +:+ "_" +:+ ev +:+ "_" +:+ pretty (Py.int now).

(** [start_charging]: [now1] and [now2] are the two readings of
    [time.time()], for the session id and for [start_time].  The result is
    the session id, or [None]. *)
Definition start_charging (st : state) (ev : string) (kw : Z) (now1 now2 : Qc)
  : option string * state :=
  if bool_decide (current_load st + kw <= max_capacity st) then
    let session_id := make_session_id (substation_id st) ev now1 in
    (Some session_id,
     {| substation_id := substation_id st;
        max_capacity := max_capacity st;
        current_load := current_load st + kw;
        active_chargers := active_chargers st + 1;
        charging_sessions :=
          <[session_id := {| ev_id := ev; requested_kw := kw;
                             start_time := now2; status := "charging" |}]>
            (charging_sessions st) |})
  else (None, st).

(** [stop_charging] *)
Definition stop_charging (st : state) (session_id : string) : bool * state :=
  match charging_sessions st !! session_id with
  | Some session =>
      (true,
       {| substation_id := substation_id st;
          max_capacity := max_capacity st;
          current_load := current_load st - requested_kw session;
          active_chargers := active_chargers st - 1;
          charging_sessions := delete session_id (charging_sessions st) |})
  | None => (false, st)
  end.

(** [sum(s['requested_kw'] for s in charging_sessions.values())] *)
Definition sessions_kw (m : gmap string session) : Z :=
  map_fold (λ _ s acc, requested_kw s + acc) 0 m.

(** Commands a substation receives, and the state after a sequence of
    them. *)
Inductive op :=
| Start (ev : string) (kw : Z) (now1 now2 : Qc)
| Stop (session_id : string).

Definition step (st : state) (o : op) : state :=
  match o with
  | Start ev kw now1 now2 => (start_charging st ev kw now1 now2).2
  | Stop session_id => (stop_charging st session_id).2
  end.

Definition run (st : state) (ops : list op) : state := foldl step st ops.

(** Predicates on a sequence of commands issued from [st]. *)

(** Every [Start] asks for a non-negative number of kW. *)
Definition nonneg_requests (ops : list op) : bool :=
  forallb (λ o, match o with
                | Start _ kw _ _ => bool_decide (0 <= kw)
                | Stop _ => true
                end) ops.

(** No accepted [Start] computes a session id that is in the session set
    at that moment. *)
Fixpoint fresh_ids (st : state) (ops : list op) : bool :=
  match ops with
  | [] => true
  | o :: ops' =>
      match o with
      | Start ev kw now1 _ =>
          negb (bool_decide (current_load st + kw <= max_capacity st))
          || match charging_sessions st
                     !! make_session_id (substation_id st) ev now1 with
             | Some _ => false
             | None => true
             end
      | Stop _ => true
      end && fresh_ids (step st o) ops'
  end.

(** The dictionary [get_status] returns; [F] is the type of Python
    floats. *)
Record status_report (F : Type) := {
  status_substation_id : Z;
  status_current_load : Z;
  status_max_capacity : Z;
  status_load_percentage : F;
  status_active_chargers : Z;
  status_available_capacity : Z
}.
Arguments status_substation_id {F} _.
Arguments status_current_load {F} _.
Arguments status_max_capacity {F} _.
Arguments status_load_percentage {F} _.
Arguments status_active_chargers {F} _.
Arguments status_available_capacity {F} _.

Section status.
Context {F : Type}.

(** The built-in [a / b] on two [int]s; [None] stands for the exception it
    raises ([ZeroDivisionError] for [b = 0], [OverflowError] for a quotient
    beyond the floats). *)
Variable truediv : Z → Z → option F.

(** The built-in [x * n] of a float by an [int]. *)
Variable mul_int : F → Z → F.

(** [get_status]; [None] stands for the exception of
    [self.current_load / self.max_capacity]. *)
Definition get_status (st : state) : option (status_report F) :=
  quotient ← truediv (current_load st) (max_capacity st);
  Some {|
    status_substation_id := substation_id st;
    status_current_load := current_load st;
    status_max_capacity := max_capacity st;
    status_load_percentage := mul_int quotient 100;
    status_active_chargers := active_chargers st;
    status_available_capacity := max_capacity st - current_load st |}.

End status.

(** The view of [POST /charge], with the service run as the main module
    (which is where it imports [request]).  [data] is the decoded body,
    [None] when [request.get_json()] gives no object, in which case the
    [except] branch answers 500.  The result is the status code with the
    JSON reply. *)
Definition start_charging_route (st : state) (data : option Wire.charge_request)
    (now1 now2 : Qc) : (Z * Wire.reply) * state :=
  match data with
  | None => ((500, Wire.error_reply "Internal server error"), st)
  | Some d =>
      if negb (Wire.truthy (Wire.ev_id d)) then
        ((400, Wire.error_reply "ev_id is required"), st)
      else
        let ev := default EmptyString (Wire.ev_id d) in
        let kw := default 10 (Wire.requested_kw d) in
        let r := start_charging st ev kw now1 now2 in
        if Wire.truthy r.1 then
          ((200, {| Wire.session_id := r.1;
                    Wire.status := Some "started";
                    Wire.substation_id := Some (substation_id st);
                    Wire.error := None |}), r.2)
        else ((503, Wire.error_reply "Insufficient capacity"), r.2)
  end.

(** The two halves of the capacity invariant. *)



End Substation.

(** ** load_balancer/main.py: [LoadBalancer] *)

Module LoadBalancer.

(** One value of [substation_metrics]. *)
Record metrics := {
  current_load : Qc;
  total_capacity : Qc;
  load_percentage : Qc;
  last_updated : Qc
}.

(** The registry [substations] and the telemetry cache
    [substation_metrics]; [polling_interval], [polling_thread] and
    [running] only steer the polling thread. *)
Record state := {
  substations : list string;
  substation_metrics : list (string * metrics)
}.

(** [LoadBalancer.__init__] *)
Definition init : state := {| substations := []; substation_metrics := [] |}.

(** [add_substation] *)
Definition add_substation (st : state) (url : string) : bool * state :=
  if negb (Py.contains url (substations st)) then
    (true, {| substations := substations st ++ [url];
              substation_metrics := substation_metrics st |})
  else (false, st).

(** [remove_substation] *)
Definition remove_substation (st : state) (url : string) : bool * state :=
  if Py.contains url (substations st) then
    (true, {| substations := Py.remove url (substations st);
              substation_metrics :=
                if bool_decide (is_Some (Dict.get url (substation_metrics st)))
                then Dict.del url (substation_metrics st)
                else substation_metrics st |})
  else (false, st).

Section polling.
(** The built-in [float(s)] on a string; [None] stands for the
    [ValueError] it raises on text that is not a number. *)
Variable float : string → option Qc.

(** One turn of the loop over the lines of the metrics page, on the
    pair [(current_load, total_capacity)]. *)
Definition parse_line (acc : Qc * Qc) (line : string) : option (Qc * Qc) :=
  if Py.startswith "current_load " line then
    field ← Py.split " " line !! 1%nat; v ← float field; Some (v, acc.2)
  else if Py.startswith "total_capacity " line then
    field ← Py.split " " line !! 1%nat; v ← float field; Some (acc.1, v)
  else Some acc.

Fixpoint parse_lines (acc : Qc * Qc) (lines : list string) : option (Qc * Qc) :=
  match lines with
  | [] => Some acc
  | line :: rest => acc' ← parse_line acc line; parse_lines acc' rest
  end.

(** The loop of [poll_substation_metrics] with its initial values
    [current_load = 0] and [total_capacity = 1]. *)
Definition parse_metrics (metrics_text : string) : option (Qc * Qc) :=
  parse_lines (0%Qc, 1%Qc) (Py.split "010" metrics_text).

(** [(current_load / total_capacity) * 100 if total_capacity > 0 else 0] *)
Definition percentage (cl tc : Qc) : Qc :=
  if bool_decide (0 < tc)%Qc then (cl / tc * Qc_of_Z 100)%Qc else 0%Qc.

(** [poll_substation_metrics]: [resp] is the outcome of the GET and
    [now] the reading of [time.time()] stored in [last_updated]. *)
Definition poll_substation_metrics (st : state) (url : string)
    (resp : Py.http_result) (now : Qc) : bool * state :=
  match resp with
  | Py.Response status_code text =>
      if bool_decide (status_code = 200) then
        match parse_metrics text with
        | Some (cl, tc) =>
            (true,
             {| substations := substations st;
                substation_metrics :=
                  Dict.set url {| current_load := cl;
                                  total_capacity := tc;
                                  load_percentage := percentage cl tc;
                                  last_updated := now |}
                    (substation_metrics st) |})
        | None => (false, st)
        end
      else (false, st)
  | Py.Raised _ => (false, st)
  end.

(** One turn of the [while] loop of [poll_all_substations]: the snapshot
    [substations.copy()] is taken first and its endpoints are polled in
    order; [net] answers the GET of each endpoint and [now] is the clock
    reading at its poll. *)
Definition poll_all_substations_once (st : state)
    (net : string → Py.http_result) (now : string → Qc) : state :=
  foldl (λ s url, (poll_substation_metrics s url (net url) (now url)).2)
        st (substations st).

End polling.

(** [get_least_loaded_substation] *)
Definition get_least_loaded_substation (st : state) : option string :=
  match substation_metrics st with
  | [] => None
  | x :: xs => Some (Py.min_from (λ x, load_percentage x.2) x xs).1
  end.

(** The [for] loop of [poll_all_substations] over a snapshot taken earlier;
    the lock is released between the snapshot and each poll, so the registry
    may have changed in between. *)
Definition poll_snapshot (float : string → option Qc) (st : state)
    (snapshot : list string) (net : string → Py.http_result)
    (now : string → Qc) : state :=
  foldl (λ s url, (poll_substation_metrics float s url (net url) (now url)).2)
        st snapshot.

(** [route_charging_request]: [http_post] answers the POST of the request
    body to a URL.  The result is the pair [(result, error)]. *)
Definition route_charging_request (st : state) (ev_id : string)
    (requested_kw : Z)
    (http_post : string → Wire.charge_request → Wire.json_result)
  : option Wire.reply * option string :=
  let substation_url := get_least_loaded_substation st in
  if negb (Wire.truthy substation_url) then
    (None, Some "No available substations")
  else
    let url := default EmptyString substation_url in
    match http_post (url +:+ "/charge")
            {| Wire.ev_id := Some ev_id;
               Wire.requested_kw := Some requested_kw |} with
    | Wire.JsonResponse status_code json =>
        if bool_decide (status_code = 200) then
          match json with
          | inl result => (Some result, None)
          | inr msg => (None, Some msg)
          end
        else (None, Some ("Substation error: " +:+ pretty status_code))
    | Wire.JsonRaised msg => (None, Some msg)
    end.

(** The dictionary [get_status] returns; [polling_interval] and [running]
    are the two attributes of the balancer outside [state]. *)
Record status_report := {
  status_substations : nat;
  status_active_substations : nat;
  status_substation_metrics : list (string * metrics);
  status_polling_interval : Z;
  status_running : bool
}.

Definition get_status (st : state) (polling_interval : Z) (running : bool)
  : status_report :=
  {| status_substations := length (substations st);
     status_active_substations := length (substation_metrics st);
     status_substation_metrics := substation_metrics st;
     status_polling_interval := polling_interval;
     status_running := running |}.

(** Calls on the balancer in which a polling pass is not interleaved with
    registry changes, and the state after a sequence of them. *)
Inductive op :=
| Add (url : string)
| Remove (url : string)
| PollPass (net : string → Py.http_result) (now : string → Qc).

Definition step (float : string → option Qc) (st : state) (o : op) : state :=
  match o with
  | Add url => (add_substation st url).2
  | Remove url => (remove_substation st url).2
  | PollPass net now => poll_all_substations_once float st net now
  end.

Definition run (float : string → option Qc) (st : state) (ops : list op)
  : state :=
  foldl (step float) st ops.

(** The registry and the cache agree: no endpoint is listed twice in
    either, and every cached endpoint is registered. *)
Definition consistent (st : state) : Prop :=
  NoDup (substations st)
  ∧ NoDup (Dict.keys (substation_metrics st))
  ∧ ∀ url, url ∈ Dict.keys (substation_metrics st) → url ∈ substations st.

(** The answers from which a poll stores nothing: every answer but a
    status 200 whose page gives the two numbers. *)
Definition unreadable (float : string → option Qc) (resp : Py.http_result)
  : Prop :=
  ∀ text cl tc,
    resp = Py.Response 200 text → parse_metrics float text ≠ Some (cl, tc).

(** The lines of a page that name one of the two gauges. *)
Definition gauge_line (line : string) : bool :=
  Py.startswith "current_load " line || Py.startswith "total_capacity " line.

(** The tie-break as the specification words it, for comparison with
    [get_least_loaded_substation]: among the endpoints whose cached
    [load_percentage] is the minimum, the first one in the order of the
    registry list [substations]. *)
Definition spec_select_registry_order (st : state) : option string :=
  match substation_metrics st with
  | [] => None
  | x :: xs =>
      let lowest := load_percentage (Py.min_from (λ x, load_percentage x.2) x xs).2 in
      snd <$> list_find
        (λ url, match Dict.get url (substation_metrics st) with
                | Some m => bool_decide (load_percentage m = lowest)
                | None => false
                end = true)
        (substations st)
  end.

(** A reader for unsigned decimal integers, standing for [float] in the
    worked examples. *)
Fixpoint digits (acc : N) (s : string) : option N :=
  match s with
  | EmptyString => Some acc
  | String c s' =>
      let n := N_of_ascii c in
      if bool_decide (48 <= n < 58)%N then digits (acc * 10 + (n - 48))%N s'
      else None
  end.

Definition float_of_digits (s : string) : option Qc :=
  match s with
  | EmptyString => None
  | _ => (λ n, Qc_of_Z (Z.of_N n)) <$> digits 0 s
  end.

(** A metrics page in the text format of [generate_latest()], reduced to
    the two gauges the poller reads. *)
Definition newline : string := String "010" EmptyString.

Definition metrics_page (load capacity : string) : string :=
  "# TYPE current_load gauge" +:+ newline
  +:+ "current_load " +:+ load +:+ newline
  +:+ "# TYPE total_capacity gauge" +:+ newline
  +:+ "total_capacity " +:+ capacity +:+ newline.

End LoadBalancer.

(** ** charge_request_service/main.py: [ChargeRequestService] *)

Module ChargeRequestService.

(** One value of [active_sessions]; [substation_id] is
    [result.get('substation_id')], which is [None] when the key is
    missing. *)
Record session := {
  ev_id : string;
  requested_kw : Z;
  substation_id : option Z;
  start_time : Qc;
  duration_minutes : option Z
}.

(** What [stop_charging_session] returns: the dictionary
    [{'status': 'stopped', 'session_id': ...}] or [{'error': ...}]. *)
Inductive stop_result :=
| Stopped (session_id : string)
| Error (error : string).

(** [f"{substation_id}"] *)
Definition render_id (i : option Z) : string :=
  match i with Some z => pretty z | None => "None" end.

(** [stop_charging_session]: [http_delete] answers the DELETE sent to
    the substation. *)
Definition stop_charging_session (active_sessions : gmap string session)
    (session_id : string) (http_delete : string → Py.http_result)
  : stop_result * gmap string session :=
  match active_sessions !! session_id with
  | None => (Error "Session not found", active_sessions)
  | Some session =>
      let substation_url :=
        "http://substation_" +:+ render_id (substation_id session) +:+ ":5000" in
      match http_delete (substation_url +:+ "/charge/" +:+ session_id) with
      | Py.Response status_code _ =>
          if bool_decide (status_code = 200) then
            (Stopped session_id, delete session_id active_sessions)
          else
            (Error ("Failed to stop session: " +:+ pretty status_code),
             active_sessions)
      | Py.Raised msg => (Error msg, active_sessions)
      end
  end.

(** [submit_charging_request]: [load_balancer_url] is the attribute of
    the service, [http_post] answers the POST to the balancer and [now] is
    the clock reading stored in [start_time].  An error result is the
    dictionary [{'error': ...}]. *)
Definition submit_charging_request (load_balancer_url : string)
    (active_sessions : gmap string session)
    (ev : string) (kw : Z) (duration : option Z)
    (http_post : string → Wire.charge_request → Wire.json_result) (now : Qc)
  : Wire.reply * gmap string session :=
  match http_post (load_balancer_url +:+ "/charge")
          {| Wire.ev_id := Some ev; Wire.requested_kw := Some kw |} with
  | Wire.JsonResponse status_code json =>
      if bool_decide (status_code = 200) then
        match json with
        | inl result =>
            if Wire.truthy (Wire.session_id result) then
              (result,
               <[default EmptyString (Wire.session_id result) :=
                   {| ev_id := ev; requested_kw := kw;
                      substation_id := Wire.substation_id result;
                      start_time := now;
                      duration_minutes := duration |}]> active_sessions)
            else (Wire.error_reply "No session ID returned", active_sessions)
        | inr msg => (Wire.error_reply msg, active_sessions)
        end
      else
        (Wire.error_reply ("Load balancer error: " +:+ pretty status_code),
         active_sessions)
  | Wire.JsonRaised msg => (Wire.error_reply msg, active_sessions)
  end.

(** The view of [DELETE /sessions/<session_id>]: the status code with the
    result of [stop_charging_session]. *)
Definition stop_session_route (active_sessions : gmap string session)
    (session_id : string) (http_delete : string → Py.http_result)
  : (Z * stop_result) * gmap string session :=
  let r := stop_charging_session active_sessions session_id http_delete in
  match r.1 with
  | Error _ => ((404, r.1), r.2)
  | Stopped _ => ((200, r.1), r.2)
  end.

End ChargeRequestService.

(** ** Python floats, as far as comparisons go

    A binary64 float is a rational, an infinity or NaN; [-0.0] compares
    equal to [0.0] and is the rational 0 here. *)

Module PyFloat.

Inductive float :=
| Finite (q : Qc)
| PosInf
| NegInf
| NaN.

(** [x < y]: false as soon as one side is NaN. *)
Definition lt (x y : float) : bool :=
  match x, y with
  | NaN, _ | _, NaN => false
  | Finite p, Finite q => bool_decide (p < q)%Qc
  | Finite _, PosInf => true
  | Finite _, NegInf => false
  | PosInf, _ => false
  | NegInf, NegInf => false
  | NegInf, _ => true
  end.

(** [x <= y]: false as soon as one side is NaN. *)
Definition le (x y : float) : bool :=
  match x, y with
  | NaN, _ | _, NaN => false
  | _, _ => negb (lt y x)
  end.

(** [math.isnan(x)] *)
Definition is_nan (x : float) : bool :=
  match x with NaN => true | _ => false end.

(** [min(xs, key=key)] on float keys once the first element [best] has
    been taken: a later element replaces the running minimum only when
    [key(x) < key(best)] is true. *)
Fixpoint min_from {A} (key : A → float) (best : A) (xs : list A) : A :=
  match xs with
  | [] => best
  | x :: xs' => min_from key (if lt (key x) (key best) then x else best) xs'
  end.

End PyFloat.

(** ** The selector over float telemetry *)

Module TelemetryFloats.

(** One value of [substation_metrics], with the three numbers as floats. *)
Record metrics := {
  current_load : PyFloat.float;
  total_capacity : PyFloat.float;
  load_percentage : PyFloat.float;
  last_updated : Qc
}.

(** [get_least_loaded_substation] on the dictionary [substation_metrics]. *)
Definition get_least_loaded_substation
    (substation_metrics : list (string * metrics)) : option string :=
  match substation_metrics with
  | [] => None
  | x :: xs => Some (PyFloat.min_from (λ x, load_percentage x.2) x xs).1
  end.

(** No cached percentage is NaN. *)
Definition no_nan (substation_metrics : list (string * metrics)) : Prop :=
  Forall (λ e, PyFloat.is_nan (load_percentage e.2) = false) substation_metrics.

(** A cache of finite, exact numbers seen as a cache of floats. *)
Definition of_exact (m : LoadBalancer.metrics) : metrics :=
  {| current_load := PyFloat.Finite (LoadBalancer.current_load m);
     total_capacity := PyFloat.Finite (LoadBalancer.total_capacity m);
     load_percentage := PyFloat.Finite (LoadBalancer.load_percentage m);
     last_updated := LoadBalancer.last_updated m |}.

Definition of_exact_cache (d : list (string * LoadBalancer.metrics))
  : list (string * metrics) :=
  (λ e, (e.1, of_exact e.2)) <$> d.

End TelemetryFloats.

(** ** The substation on float kW

    [start_charging] and [stop_charging] when [requested_kw] arrives as a
    JSON float: [self.current_load] is a float from the first accepted start
    on.  The [int]s in play, the initial load 0 and a capacity in the range
    80..120 of the service, are floats without rounding, so that [+], [-] and
    [<=] between them and a float are the operations on binary64. *)

Module SubstationFloat.

Record session := {
  ev_id : string;
  requested_kw : PrimFloat.float;
  start_time : Qc;
  status : string
}.

Record state := {
  substation_id : Z;
  max_capacity : PrimFloat.float;
  current_load : PrimFloat.float;
  active_chargers : Z;
  charging_sessions : gmap string session
}.

Definition init (sid : Z) (cap : PrimFloat.float) : state :=
  {| substation_id := sid; max_capacity := cap; current_load := 0%float;
     active_chargers := 0; charging_sessions := ∅ |}.

Definition start_charging (st : state) (ev : string) (kw : PrimFloat.float)
    (now1 now2 : Qc) : option string * state :=
  if PrimFloat.leb (PrimFloat.add (current_load st) kw) (max_capacity st) then
    let session_id := Substation.make_session_id (substation_id st) ev now1 in
    (Some session_id,
     {| substation_id := substation_id st;
        max_capacity := max_capacity st;
        current_load := PrimFloat.add (current_load st) kw;
        active_chargers := active_chargers st + 1;
        charging_sessions :=
          <[session_id := {| ev_id := ev; requested_kw := kw;
                             start_time := now2; status := "charging" |}]>
            (charging_sessions st) |})
  else (None, st).

Definition stop_charging (st : state) (session_id : string) : bool * state :=
  match charging_sessions st !! session_id with
  | Some session =>
      (true,
       {| substation_id := substation_id st;
          max_capacity := max_capacity st;
          current_load := PrimFloat.sub (current_load st) (requested_kw session);
          active_chargers := active_chargers st - 1;
          charging_sessions := delete session_id (charging_sessions st) |})
  | None => (false, st)
  end.

End SubstationFloat.

(** * Properties of the substation *)

Module SubstationSpec.
Import Substation.

(** ** Sum of the sessions' kW under insertion and deletion *)

Lemma sessions_kw_empty : sessions_kw ∅ = 0.
Proof. reflexivity. Qed.

Lemma sessions_kw_insert_fresh (m : gmap string session) k s :
  m !! k = None →
  sessions_kw (<[k := s]> m) = requested_kw s + sessions_kw m.
Proof.
  intros Hk. unfold sessions_kw.
  rewrite map_fold_insert_L; [done | intros; lia | done].
Qed.

Lemma sessions_kw_delete (m : gmap string session) k s :
  m !! k = Some s →
  sessions_kw (delete k m) = sessions_kw m - requested_kw s.
Proof.
  intros Hk. unfold sessions_kw.
  rewrite (map_fold_delete_L _ 0 k s m); [lia | intros; lia | done].
Qed.

(** An overwritten entry is lost from the sum. *)
Lemma sessions_kw_insert_present (m : gmap string session) k s s0 :
  m !! k = Some s0 →
  sessions_kw (<[k := s]> m) = requested_kw s + sessions_kw m - requested_kw s0.
Proof.
  intros Hk. rewrite <- (insert_delete_eq m k s).
  rewrite sessions_kw_insert_fresh by apply lookup_delete_eq.
  rewrite (sessions_kw_delete m k s0 Hk). lia.
Qed.

(** ** The two transitions, case by case *)

Lemma start_charging_accept st ev kw now1 now2 :
  current_load st + kw <= max_capacity st →
  start_charging st ev kw now1 now2 =
    (Some (make_session_id (substation_id st) ev now1),
     {| substation_id := substation_id st;
        max_capacity := max_capacity st;
        current_load := current_load st + kw;
        active_chargers := active_chargers st + 1;
        charging_sessions :=
          <[make_session_id (substation_id st) ev now1 :=
              {| ev_id := ev; requested_kw := kw;
                 start_time := now2; status := "charging" |}]>
            (charging_sessions st) |}).
Proof. intros H. unfold start_charging. by rewrite bool_decide_eq_true_2. Qed.

Lemma start_charging_reject st ev kw now1 now2 :
  ¬ current_load st + kw <= max_capacity st →
  start_charging st ev kw now1 now2 = (None, st).
Proof. intros H. unfold start_charging. by rewrite bool_decide_eq_false_2. Qed.

(** ** Invariants along a run *)




(** ** Start *)

(** C3. [start_charging] returns a session id exactly when
    [current_load + requested_kw <= max_capacity].  When it accepts, the
    load grows by [requested_kw], one more charger is active and the
    session set maps the returned id to the new session; when it rejects,
    it returns [None] and the state, session set included, is the one
    before the call. *)
Theorem start_charging_accept_iff_capacity st ev kw now1 now2 :
  let r := start_charging st ev kw now1 now2 in
  (is_Some r.1 ↔ current_load st + kw <= max_capacity st)
  ∧ (current_load st + kw <= max_capacity st →
       ∃ session_id,
         r.1 = Some session_id
         ∧ session_id = make_session_id (substation_id st) ev now1
         ∧ current_load r.2 = current_load st + kw
         ∧ active_chargers r.2 = active_chargers st + 1
         ∧ max_capacity r.2 = max_capacity st
         ∧ charging_sessions r.2 !! session_id =
             Some {| ev_id := ev; requested_kw := kw;
                     start_time := now2; status := "charging" |}
         ∧ ∀ k, k ≠ session_id →
                charging_sessions r.2 !! k = charging_sessions st !! k)
  ∧ (¬ current_load st + kw <= max_capacity st →
       r.1 = None
       ∧ r.2 = st
       ∧ charging_sessions r.2 = charging_sessions st
       ∧ current_load r.2 = current_load st).
Proof.
  intros r. subst r.
  destruct (decide (current_load st + kw <= max_capacity st)) as [Hok | Hno].
  - rewrite start_charging_accept by done. simpl. split_and!.
    + split; [done | by eexists].
    + intros _. eexists. split_and!; try done.
      * apply lookup_insert_eq.
      * intros k Hk. by apply lookup_insert_ne.
    + done.
  - rewrite start_charging_reject by done. simpl. split_and!.
    + split; [by intros [? ?] | done].
    + done.
    + done.
Qed.

Lemma start_charging_accept_iff_capacity_witness :
  let st := init 1234 100 in
  let r := start_charging st "EV_1" 60 (Qc_of_Z 5) (Qc_of_Z 5) in
  let r' := start_charging r.2 "EV_2" 50 (Qc_of_Z 6) (Qc_of_Z 6) in
  (r.1 = Some "1234_EV_1_5" ∧ current_load r.2 = 60)
  ∧ (r'.1 = None ∧ r'.2 = r.2).
Proof.
  intros st r r'. split.
  - destruct (start_charging_accept_iff_capacity st "EV_1" 60 (Qc_of_Z 5) (Qc_of_Z 5))
      as (_ & Hacc & _).
    destruct Hacc as (sid & H1 & H2 & H3 & _); [vm_compute; discriminate |].
    split; [| exact H3]. rewrite H2 in H1. exact H1.
  - destruct (start_charging_accept_iff_capacity r.2 "EV_2" 50 (Qc_of_Z 6) (Qc_of_Z 6))
      as (_ & _ & Hrej).
    destruct Hrej as (H1 & H2 & _); [vm_compute; intros H; by apply H |].
    by split.
Defined.

(** ** Stop *)

(** C4. [stop_charging] on an id that is not in the session set returns
    [False] and leaves the whole state as it was; on an id that is in the
    set it returns [True], removes that session and no other, and
    subtracts the session's [requested_kw] from the load. *)
Theorem stop_charging_unknown_or_release st session_id :
  (charging_sessions st !! session_id = None →
     stop_charging st session_id = (false, st))
  ∧ (∀ s, charging_sessions st !! session_id = Some s →
       let r := stop_charging st session_id in
       r.1 = true
       ∧ charging_sessions r.2 = delete session_id (charging_sessions st)
       ∧ charging_sessions r.2 !! session_id = None
       ∧ (∀ k, k ≠ session_id →
            charging_sessions r.2 !! k = charging_sessions st !! k)
       ∧ current_load r.2 = current_load st - requested_kw s
       ∧ active_chargers r.2 = active_chargers st - 1
       ∧ max_capacity r.2 = max_capacity st).
Proof.
  split.
  - intros Hk. unfold stop_charging. by rewrite Hk.
  - intros s Hk r. subst r. unfold stop_charging. rewrite Hk. simpl.
    split_and!; try done.
    + apply lookup_delete_eq.
    + intros k Hne. by apply lookup_delete_ne.
Qed.

Lemma stop_charging_unknown_or_release_witness :
  let st := (start_charging (init 1234 100) "EV_1" 60 (Qc_of_Z 5) (Qc_of_Z 5)).2 in
  stop_charging st "1234_EV_9_5" = (false, st)
  ∧ (stop_charging st "1234_EV_1_5").1 = true
  ∧ current_load (stop_charging st "1234_EV_1_5").2 = 0.
Proof.
  intros st.
  destruct (stop_charging_unknown_or_release st "1234_EV_9_5") as [Hno _].
  destruct (stop_charging_unknown_or_release st "1234_EV_1_5") as [_ Hyes].
  split; [apply Hno; reflexivity |].
  destruct (Hyes {| ev_id := "EV_1"; requested_kw := 60;
                    start_time := Qc_of_Z 5; status := "charging" |})
    as (H1 & _ & _ & _ & H5 & _); [reflexivity |].
  split; [exact H1 | exact H5].
Defined.

(** ** Session ids that collide *)

(** C10. Two accepted [start_charging] calls for the same [ev_id] whose
    clock readings fall in the same integer second return the same
    session id; the second call overwrites the entry of the first, while
    the load and the charger count grow for both.  Starting without that
    id in the session set, the set grows by one session for the two
    allocations. *)
Theorem start_charging_same_second_collides st ev kw1 kw2 t1 t1' t2 t2' :
  Py.int t1 = Py.int t2 →
  current_load st + kw1 <= max_capacity st →
  current_load st + kw1 + kw2 <= max_capacity st →
  let r1 := start_charging st ev kw1 t1 t1' in
  let r2 := start_charging r1.2 ev kw2 t2 t2' in
  ∃ session_id,
    r1.1 = Some session_id
    ∧ r2.1 = Some session_id
    ∧ charging_sessions r1.2 !! session_id =
        Some {| ev_id := ev; requested_kw := kw1;
                start_time := t1'; status := "charging" |}
    ∧ charging_sessions r2.2 !! session_id =
        Some {| ev_id := ev; requested_kw := kw2;
                start_time := t2'; status := "charging" |}
    ∧ charging_sessions r2.2 =
        <[session_id := {| ev_id := ev; requested_kw := kw2;
                           start_time := t2'; status := "charging" |}]>
          (charging_sessions st)
    ∧ current_load r2.2 = current_load st + kw1 + kw2
    ∧ active_chargers r2.2 = active_chargers st + 2
    ∧ (charging_sessions st !! session_id = None →
         size (charging_sessions r2.2) = S (size (charging_sessions st))
         ∧ sessions_kw (charging_sessions r2.2) =
             sessions_kw (charging_sessions st) + kw2).
Proof.
  intros Ht H1 H2 r1 r2. subst r2 r1.
  rewrite (start_charging_accept st) by done. simpl.
  rewrite start_charging_accept by (simpl; done). simpl.
  unfold make_session_id. rewrite Ht.
  eexists. split_and!; try done.
  - apply lookup_insert_eq.
  - apply lookup_insert_eq.
  - apply insert_insert_eq.
  - lia.
  - intros Hk. rewrite insert_insert_eq. split.
    + by apply map_size_insert_None.
    + rewrite sessions_kw_insert_fresh by done. simpl. lia.
Qed.

Lemma start_charging_same_second_collides_witness :
  let st := init 1234 100 in
  let r1 := start_charging st "EV_1" 22 (Q2Qc (51 # 10)) (Q2Qc (52 # 10)) in
  let r2 := start_charging r1.2 "EV_1" 50 (Q2Qc (57 # 10)) (Q2Qc (58 # 10)) in
  ∃ session_id,
    r1.1 = Some session_id ∧ r2.1 = Some session_id
    ∧ current_load r2.2 = 72
    ∧ active_chargers r2.2 = 2
    ∧ size (charging_sessions r2.2) = 1%nat.
Proof.
  intros st r1 r2.
  destruct (start_charging_same_second_collides st "EV_1" 22 50
              (Q2Qc (51 # 10)) (Q2Qc (52 # 10)) (Q2Qc (57 # 10)) (Q2Qc (58 # 10)))
    as (sid & Ha & Hb & _ & _ & _ & Hload & Hact & Hsize);
    [reflexivity | vm_compute; discriminate | vm_compute; discriminate |].
  exists sid. split_and!; [exact Ha | exact Hb | exact Hload | exact Hact |].
  destruct Hsize as [Hsize _]; [reflexivity | exact Hsize].
Defined.

(** ** The capacity invariant *)

#[local] Set Warnings "-inexact-float".




End SubstationSpec.

(** * Properties of insertion-ordered dictionaries and of [min] *)

Module DictFacts.
Section dict.
Context {V : Type}.
Implicit Types (d : list (string * V)) (k : string) (v : V).

Lemma get_set_eq d k v : Dict.get k (Dict.set k v d) = Some v.
Proof.
  induction d as [| [k' v'] d IH]; simpl.
  - by rewrite decide_True.
  - destruct (decide (k' = k)) as [-> | Hne]; simpl.
    + by rewrite decide_True.
    + by rewrite decide_False.
Qed.

Lemma get_set_ne d k k' v : k' ≠ k → Dict.get k' (Dict.set k v d) = Dict.get k' d.
Proof.
  intros Hne. induction d as [| [k0 v0] d IH]; simpl.
  - by rewrite decide_False.
  - destruct (decide (k0 = k)) as [-> | Hk]; simpl.
    + by rewrite !decide_False.
    + destruct (decide (k0 = k')); [done | apply IH].
Qed.

Lemma get_del_eq d k : Dict.get k (Dict.del k d) = None.
Proof.
  induction d as [| [k' v'] d IH]; simpl; [done |].
  destruct (decide (k' = k)) as [-> | Hne]; simpl; [done |].
  by rewrite decide_False.
Qed.

Lemma get_del_ne d k k' : k' ≠ k → Dict.get k' (Dict.del k d) = Dict.get k' d.
Proof.
  intros Hne. induction d as [| [k0 v0] d IH]; simpl; [done |].
  destruct (decide (k0 = k)) as [-> | Hk]; simpl.
  - by rewrite decide_False.
  - destruct (decide (k0 = k')); [done | apply IH].
Qed.

(** The items after an assignment: the new binding is there, and every
    item is the new binding or an old one. *)
Lemma elem_of_set_new d k v : (k, v) ∈ Dict.set k v d.
Proof.
  induction d as [| [k' v'] d IH]; simpl.
  - apply list_elem_of_here.
  - destruct (decide (k' = k)); [apply list_elem_of_here |].
    by apply list_elem_of_further.
Qed.

Lemma elem_of_set_inv d k v e :
  e ∈ Dict.set k v d → e = (k, v) ∨ e ∈ d.
Proof.
  induction d as [| [k' v'] d IH]; simpl.
  - intros ->%list_elem_of_singleton. by left.
  - destruct (decide (k' = k)) as [-> | Hne].
    + intros [-> | He]%elem_of_cons; [by left |].
      right. by apply list_elem_of_further.
    + intros [-> | He]%elem_of_cons; [right; apply list_elem_of_here |].
      destruct (IH He) as [-> | Hd]; [by left |].
      right. by apply list_elem_of_further.
Qed.

Lemma set_nonempty d k v : Dict.set k v d ≠ [].
Proof. destruct d as [| [k' v'] d]; simpl; [done |]. by case_decide. Qed.

End dict.
End DictFacts.

Module MinFacts.
Section min.
Context {A : Type} (key : A → Qc).

(** The running minimum with what has been read before and after it. *)
Lemma min_from_split_gen xs : ∀ pre best post,
  Forall (λ e, key best < key e)%Qc pre →
  Forall (λ e, key best ≤ key e)%Qc post →
  ∃ l1 l2,
    pre ++ best :: post ++ xs = l1 ++ Py.min_from key best xs :: l2
    ∧ Forall (λ e, key (Py.min_from key best xs) < key e)%Qc l1
    ∧ Forall (λ e, key (Py.min_from key best xs) ≤ key e)%Qc l2.
Proof.
  induction xs as [| x xs IH]; intros pre best post Hpre Hpost; simpl.
  - exists pre, post. by rewrite app_nil_r.
  - case_bool_decide as Hlt.
    + destruct (IH (pre ++ best :: post) x []) as (l1 & l2 & Heq & H1 & H2).
      * apply Forall_app. split; [| apply Forall_cons; split; [done |]].
        -- eapply Forall_impl; [exact Hpre |]. simpl. intros e He.
           by eapply Qclt_trans.
        -- eapply Forall_impl; [exact Hpost |]. simpl. intros e He.
           by eapply Qclt_le_trans.
      * constructor.
      * exists l1, l2. split; [| done].
        rewrite <- Heq. simpl. by rewrite <- app_assoc.
    + apply Qcnot_lt_le in Hlt.
      destruct (IH pre best (post ++ [x])) as (l1 & l2 & Heq & H1 & H2).
      * done.
      * apply Forall_app. split; [done |]. by apply Forall_singleton.
      * exists l1, l2. split; [| done].
        rewrite <- Heq. by rewrite <- app_assoc.
Qed.

(** [min] returns the first of the elements with the smallest key. *)
Lemma min_from_split best xs :
  ∃ l1 l2,
    best :: xs = l1 ++ Py.min_from key best xs :: l2
    ∧ Forall (λ e, key (Py.min_from key best xs) < key e)%Qc l1
    ∧ Forall (λ e, key (Py.min_from key best xs) ≤ key e)%Qc l2.
Proof. apply (min_from_split_gen xs [] best []); constructor. Qed.

Lemma min_from_elem best xs : Py.min_from key best xs ∈ best :: xs.
Proof.
  destruct (min_from_split best xs) as (l1 & l2 & -> & _).
  apply elem_of_app. right. apply list_elem_of_here.
Qed.

Lemma min_from_le best xs e :
  e ∈ best :: xs → (key (Py.min_from key best xs) ≤ key e)%Qc.
Proof.
  destruct (min_from_split best xs) as (l1 & l2 & -> & H1 & H2).
  intros [He | He]%elem_of_app.
  - apply Qclt_le_weak. by eapply (proj1 (Forall_forall _ _) H1).
  - apply elem_of_cons in He as [-> | He]; [apply Qcle_refl |].
    by eapply (proj1 (Forall_forall _ _) H2).
Qed.

End min.
End MinFacts.

(** * Properties of the order on floats *)

Module FloatFacts.
Import PyFloat.

(** ** The order on floats that are not NaN *)


Lemma lt_trans x y z : lt x y = true → lt y z = true → lt x z = true.
Proof.
  destruct x as [p | | |], y as [q | | |], z as [r | | |]; simpl; try done.
  intros H1%bool_decide_eq_true H2%bool_decide_eq_true.
  apply bool_decide_eq_true_2. by eapply Qclt_trans.
Qed.



Lemma not_lt_le x y :
  is_nan x = false → is_nan y = false → lt x y = false → le y x = true.
Proof.
  intros Hx Hy H.
  destruct x as [p | | |], y as [q | | |]; simpl in *; try done; by rewrite H.
Qed.


Lemma lt_le_trans x y z : lt x y = true → le y z = true → lt x z = true.
Proof.
  destruct x as [p | | |], y as [q | | |], z as [r | | |]; simpl; try done.
  intros H1%bool_decide_eq_true H2%negb_true_iff%bool_decide_eq_false.
  apply bool_decide_eq_true_2. eapply Qclt_le_trans; [done |].
  by apply Qcnot_lt_le.
Qed.

(** ** [min] on float keys *)

Section min.
Context {A : Type} (key : A → float).

Lemma float_min_from_split_gen xs : ∀ pre best post,
  is_nan (key best) = false →
  Forall (λ e, is_nan (key e) = false) xs →
  Forall (λ e, lt (key best) (key e) = true) pre →
  Forall (λ e, le (key best) (key e) = true) post →
  ∃ l1 l2,
    pre ++ best :: post ++ xs = l1 ++ min_from key best xs :: l2
    ∧ Forall (λ e, lt (key (min_from key best xs)) (key e) = true) l1
    ∧ Forall (λ e, le (key (min_from key best xs)) (key e) = true) l2.
Proof.
  induction xs as [| x xs IH]; intros pre best post Hbest Hxs Hpre Hpost; simpl.
  - exists pre, post. by rewrite app_nil_r.
  - apply Forall_cons in Hxs as [Hx Hxs].
    destruct (lt (key x) (key best)) eqn:Hlt.
    + destruct (IH (pre ++ best :: post) x []) as (l1 & l2 & Heq & H1 & H2);
        [done | done | | constructor |].
      * apply Forall_app. split; [| apply Forall_cons; split; [done |]].
        -- eapply Forall_impl; [exact Hpre |]. simpl. intros e He.
           by eapply lt_trans.
        -- eapply Forall_impl; [exact Hpost |]. simpl. intros e He.
           by eapply lt_le_trans.
      * exists l1, l2. split; [| done].
        rewrite <- Heq. simpl. by rewrite <- app_assoc.
    + destruct (IH pre best (post ++ [x])) as (l1 & l2 & Heq & H1 & H2);
        [done | done | done | |].
      * apply Forall_app. split; [done |]. apply Forall_singleton.
        by apply not_lt_le.
      * exists l1, l2. split; [| done].
        rewrite <- Heq. by rewrite <- app_assoc.
Qed.

Lemma float_min_from_split best xs :
  Forall (λ e, is_nan (key e) = false) (best :: xs) →
  ∃ l1 l2,
    best :: xs = l1 ++ min_from key best xs :: l2
    ∧ Forall (λ e, lt (key (min_from key best xs)) (key e) = true) l1
    ∧ Forall (λ e, le (key (min_from key best xs)) (key e) = true) l2.
Proof.
  intros [Hbest Hxs]%Forall_cons.
  apply (float_min_from_split_gen xs [] best []); (done || constructor).
Qed.

End min.

(** ** The selector on floats *)

Import TelemetryFloats.

Lemma float_select_first_lowest cache :
  cache ≠ [] → no_nan cache →
  ∃ l1 url m l2,
    cache = l1 ++ (url, m) :: l2
    ∧ get_least_loaded_substation cache = Some url
    ∧ Forall (λ e, lt (load_percentage m) (load_percentage e.2) = true) l1
    ∧ Forall (λ e, le (load_percentage m) (load_percentage e.2) = true) l2.
Proof.
  unfold get_least_loaded_substation, no_nan.
  destruct cache as [| x xs]; [done |]. intros _ Hnan.
  destruct (float_min_from_split (λ x, load_percentage x.2) x xs Hnan)
    as (l1 & l2 & Heq & H1 & H2).
  destruct (min_from _ x xs) as [url m] eqn:Hmin.
  by exists l1, url, m, l2.
Qed.



(** On a cache of finite numbers the selector on floats is the selector of
    the balancer. *)
Lemma min_from_of_exact xs : ∀ best,
  min_from (λ x, load_percentage x.2)
    (best.1, of_exact best.2) (of_exact_cache xs)
  = ((Py.min_from (λ x, LoadBalancer.load_percentage x.2) best xs).1,
     of_exact (Py.min_from (λ x, LoadBalancer.load_percentage x.2) best xs).2).
Proof.
  induction xs as [| x xs IH]; intros best; [done |].
  simpl. rewrite <- IH. by case_bool_decide.
Qed.

Lemma select_of_exact st :
  get_least_loaded_substation (of_exact_cache (LoadBalancer.substation_metrics st))
  = LoadBalancer.get_least_loaded_substation st.
Proof.
  unfold get_least_loaded_substation, LoadBalancer.get_least_loaded_substation.
  destruct (LoadBalancer.substation_metrics st) as [| x xs]; [done |].
  simpl. by rewrite min_from_of_exact.
Qed.

Lemma no_nan_of_exact d : no_nan (of_exact_cache d).
Proof.
  unfold no_nan, of_exact_cache. apply Forall_fmap, Forall_forall. by intros e _.
Qed.

End FloatFacts.

(** * Properties of the load balancer *)

Module LoadBalancerSpec.
Import LoadBalancer.

(** ** The poller, case by case *)

Lemma poll_success float st url text now cl tc :
  parse_metrics float text = Some (cl, tc) →
  poll_substation_metrics float st url (Py.Response 200 text) now =
    (true,
     {| substations := substations st;
        substation_metrics :=
          Dict.set url {| current_load := cl; total_capacity := tc;
                          load_percentage := percentage cl tc;
                          last_updated := now |}
            (substation_metrics st) |}).
Proof. intros H. unfold poll_substation_metrics. simpl. by rewrite H. Qed.

Lemma percentage_pos cl tc : (0 < tc)%Qc → percentage cl tc = (cl / tc * Qc_of_Z 100)%Qc.
Proof. intros H. unfold percentage. by rewrite bool_decide_eq_true_2. Qed.

Lemma percentage_nonpos cl tc : (tc ≤ 0)%Qc → percentage cl tc = 0%Qc.
Proof.
  intros H. unfold percentage. rewrite bool_decide_eq_false_2; [done |].
  by apply Qcle_not_lt.
Qed.

(** Lines that name neither gauge leave the pair as it is. *)
Lemma parse_lines_no_gauge float lines : ∀ acc,
  Forall (λ line, Py.startswith "current_load " line = false
                  ∧ Py.startswith "total_capacity " line = false) lines →
  parse_lines float acc lines = Some acc.
Proof.
  induction lines as [| line lines IH]; intros acc Hall; [done |].
  apply Forall_cons in Hall as [[H1 H2] Hall].
  simpl. unfold parse_line. rewrite H1, H2. simpl. by apply IH.
Qed.

(** ** The selector *)

Lemma select_empty st :
  substation_metrics st = [] → get_least_loaded_substation st = None.
Proof. intros H. unfold get_least_loaded_substation. by rewrite H. Qed.

(** The selected endpoint is the key of the first item, in the iteration
    order of the cache, among those with the lowest percentage. *)
Lemma select_first_lowest st :
  substation_metrics st ≠ [] →
  ∃ l1 url m l2,
    substation_metrics st = l1 ++ (url, m) :: l2
    ∧ get_least_loaded_substation st = Some url
    ∧ Forall (λ e, load_percentage m < load_percentage e.2)%Qc l1
    ∧ Forall (λ e, load_percentage m ≤ load_percentage e.2)%Qc l2.
Proof.
  unfold get_least_loaded_substation.
  destruct (substation_metrics st) as [| x xs]; [done |]. intros _.
  destruct (MinFacts.min_from_split (λ x, load_percentage x.2) x xs)
    as (l1 & l2 & Heq & H1 & H2).
  destruct (Py.min_from _ x xs) as [url m] eqn:Hmin.
  by exists l1, url, m, l2.
Qed.

Lemma select_lowest st :
  substation_metrics st ≠ [] →
  ∃ url m,
    get_least_loaded_substation st = Some url
    ∧ (url, m) ∈ substation_metrics st
    ∧ ∀ url' m', (url', m') ∈ substation_metrics st →
                 (load_percentage m ≤ load_percentage m')%Qc.
Proof.
  intros Hne. destruct (select_first_lowest st Hne)
    as (l1 & url & m & l2 & Heq & Hsel & H1 & H2).
  exists url, m. split_and!; [done | |].
  - rewrite Heq. apply elem_of_app. right. apply list_elem_of_here.
  - intros url' m'. rewrite Heq.
    intros [He | He]%elem_of_app.
    + apply Qclt_le_weak. apply (proj1 (Forall_forall _ _) H1 _ He).
    + apply elem_of_cons in He as [[= -> ->] | He]; [apply Qcle_refl |].
      apply (proj1 (Forall_forall _ _) H2 _ He).
Qed.







(** ** The poller *)

(** C5. A poll that gets status 200 and reads [(current_load,
    total_capacity)] from the page returns [True] and stores, under the
    polled endpoint, the entry made of the two numbers, the percentage and
    the time of the poll, where the percentage is
    [current_load / total_capacity * 100] for a positive capacity and 0
    otherwise; the other entries and the registry stay as they were.  A
    poll that gets another status, or whose request raises, or whose page
    carries a gauge that [float] cannot read, returns [False] and leaves
    cache and registry as they were. *)
Theorem poll_replaces_entry_or_keeps_cache float st url resp now :
  (∀ text cl tc,
     resp = Py.Response 200 text →
     parse_metrics float text = Some (cl, tc) →
     let r := poll_substation_metrics float st url resp now in
     r.1 = true
     ∧ Dict.get url (substation_metrics r.2) =
         Some {| current_load := cl; total_capacity := tc;
                 load_percentage := percentage cl tc; last_updated := now |}
     ∧ ((0 < tc)%Qc → percentage cl tc = (cl / tc * Qc_of_Z 100)%Qc)
     ∧ ((tc ≤ 0)%Qc → percentage cl tc = 0%Qc)
     ∧ (∀ url', url' ≠ url →
          Dict.get url' (substation_metrics r.2) =
          Dict.get url' (substation_metrics st))
     ∧ substations r.2 = substations st)
  ∧ (∀ status_code text,
       resp = Py.Response status_code text → status_code ≠ 200 →
       poll_substation_metrics float st url resp now = (false, st))
  ∧ (∀ msg,
       resp = Py.Raised msg →
       poll_substation_metrics float st url resp now = (false, st))
  ∧ (∀ text,
       resp = Py.Response 200 text →
       parse_metrics float text = None →
       poll_substation_metrics float st url resp now = (false, st)).
Proof.
  split_and!; [| | | by intros text -> Hparse; simpl; rewrite Hparse].
  - intros text cl tc -> Hparse r. subst r.
    rewrite (poll_success _ _ _ _ _ _ _ Hparse). simpl. split_and!.
    + done.
    + apply DictFacts.get_set_eq.
    + apply percentage_pos.
    + apply percentage_nonpos.
    + intros url' Hne. by apply DictFacts.get_set_ne.
    + done.
  - intros status_code text -> Hne. simpl. by rewrite bool_decide_eq_false_2.
  - by intros msg ->.
Qed.

Lemma poll_replaces_entry_or_keeps_cache_witness :
  let a := "http://substation1:5000" in
  let st := (add_substation init a).2 in
  let ok := Py.Response 200 (metrics_page "30" "120") in
  let s1 := (poll_substation_metrics float_of_digits st a ok (Qc_of_Z 5)).2 in
  Dict.get a (substation_metrics s1) =
    Some {| current_load := Qc_of_Z 30; total_capacity := Qc_of_Z 120;
            load_percentage := percentage (Qc_of_Z 30) (Qc_of_Z 120);
            last_updated := Qc_of_Z 5 |}
  ∧ percentage (Qc_of_Z 30) (Qc_of_Z 120)
    = (Qc_of_Z 30 / Qc_of_Z 120 * Qc_of_Z 100)%Qc
  ∧ poll_substation_metrics float_of_digits s1 a
      (Py.Response 503 "") (Qc_of_Z 10) = (false, s1)
  ∧ poll_substation_metrics float_of_digits s1 a
      (Py.Raised "timed out") (Qc_of_Z 10) = (false, s1).
Proof.
  intros a st ok s1.
  destruct (poll_replaces_entry_or_keeps_cache float_of_digits st a ok (Qc_of_Z 5))
    as (Hok & _).
  destruct (Hok (metrics_page "30" "120") (Qc_of_Z 30) (Qc_of_Z 120))
    as (_ & Hget & Hpos & _); [reflexivity | reflexivity |].
  destruct (poll_replaces_entry_or_keeps_cache float_of_digits s1 a
              (Py.Response 503 "") (Qc_of_Z 10)) as (_ & Hstatus & _).
  destruct (poll_replaces_entry_or_keeps_cache float_of_digits s1 a
              (Py.Raised "timed out") (Qc_of_Z 10)) as (_ & _ & Hraise & _).
  split_and!.
  - exact Hget.
  - apply Hpos. reflexivity.
  - apply (Hstatus 503 ""); [reflexivity | discriminate].
  - apply (Hraise "timed out"). reflexivity.
Defined.

(** C9. When the page of a poll with status 200 has no line that starts
    with ['current_load '] and none that starts with ['total_capacity '],
    the poll returns [True] and caches the entry with load 0, capacity 1
    and percentage 0 for the endpoint.  The selector then returns an
    endpoint; no cached entry with a non-negative percentage is below the
    new one; and the polled endpoint itself is returned when every other
    cached percentage is positive. *)
Theorem poll_without_gauges_caches_zero float st url text now :
  Forall (λ line, Py.startswith "current_load " line = false
                  ∧ Py.startswith "total_capacity " line = false)
         (Py.split "010" text) →
  let r := poll_substation_metrics float st url (Py.Response 200 text) now in
  r.1 = true
  ∧ Dict.get url (substation_metrics r.2) =
      Some {| current_load := 0%Qc; total_capacity := 1%Qc;
              load_percentage := 0%Qc; last_updated := now |}
  ∧ is_Some (get_least_loaded_substation r.2)
  ∧ ((∀ e, e ∈ substation_metrics st → (0 ≤ load_percentage e.2)%Qc) →
       ∃ sel m, get_least_loaded_substation r.2 = Some sel
                ∧ (sel, m) ∈ substation_metrics r.2
                ∧ load_percentage m = 0%Qc)
  ∧ ((∀ e, e ∈ substation_metrics st → e.1 ≠ url →
           (0 < load_percentage e.2)%Qc) →
       get_least_loaded_substation r.2 = Some url).
Proof.
  intros Hlines r. subst r.
  assert (Hparse : parse_metrics float text = Some (0%Qc, 1%Qc))
    by by apply parse_lines_no_gauge.
  rewrite (poll_success _ _ _ _ _ _ _ Hparse).
  assert (Hzero : percentage 0 1 = 0%Qc) by reflexivity.
  rewrite Hzero. simpl.
  set (new := {| current_load := 0%Qc; total_capacity := 1%Qc;
                 load_percentage := 0%Qc; last_updated := now |}).
  set (st' := {| substations := substations st;
                 substation_metrics := Dict.set url new (substation_metrics st) |}).
  assert (Hne : substation_metrics st' ≠ []) by apply DictFacts.set_nonempty.
  destruct (select_lowest st' Hne) as (sel & m & Hsel & Hin & Hmin).
  assert (Hnew : (url, new) ∈ substation_metrics st')
    by apply DictFacts.elem_of_set_new.
  assert (Hle : (load_percentage m ≤ 0)%Qc) by apply (Hmin url new Hnew).
  split_and!.
  - done.
  - apply DictFacts.get_set_eq.
  - rewrite Hsel. by eexists.
  - intros Hnonneg. exists sel, m. split_and!; [done | done |].
    apply Qcle_antisym; [done |].
    apply DictFacts.elem_of_set_inv in Hin as [[= _ ->] | Hin]; [done |].
    apply (Hnonneg _ Hin).
  - intros Hpos. rewrite Hsel. f_equal.
    apply DictFacts.elem_of_set_inv in Hin as [[= -> _] | Hin]; [done |].
    destruct (decide (sel = url)) as [| Hother]; [done |].
    specialize (Hpos _ Hin Hother). simpl in Hpos.
    exfalso. by eapply Qclt_not_le.
Qed.

Lemma poll_without_gauges_caches_zero_witness :
  let a := "http://substation1:5000" in
  let b := "http://substation2:5000" in
  let st := (add_substation (add_substation init a).2 b).2 in
  let s1 := (poll_substation_metrics float_of_digits st a
               (Py.Response 200 (metrics_page "20" "100")) (Qc_of_Z 5)).2 in
  let r := poll_substation_metrics float_of_digits s1 b
             (Py.Response 200 "<html>maintenance</html>") (Qc_of_Z 6) in
  r.1 = true
  ∧ Dict.get b (substation_metrics r.2) =
      Some {| current_load := 0%Qc; total_capacity := 1%Qc;
              load_percentage := 0%Qc; last_updated := Qc_of_Z 6 |}
  ∧ get_least_loaded_substation r.2 = Some b.
Proof.
  intros a b st s1 r.
  destruct (poll_without_gauges_caches_zero float_of_digits s1 b
              "<html>maintenance</html>" (Qc_of_Z 6))
    as (Hret & Hget & _ & _ & Hsel).
  - repeat constructor.
  - split_and!; [exact Hret | exact Hget |].
    apply Hsel. intros e He Hb.
    apply list_elem_of_singleton in He. subst e. reflexivity.
Defined.

(** ** Ties *)

(** C6, as stated, fails when the cache was filled in another order than
    the registry.  With [a] registered before [b], a first polling pass in
    which the request to [a] times out and [b] reports 50%, and a second
    pass in which both report 50%, the registry lists [a] first and the
    cache lists [b] first; the selector returns [b]. *)
Lemma select_tie_break_registry_order_counterexample :
  let a := "http://substation1:5000" in
  let b := "http://substation2:5000" in
  let half := Py.Response 200 (metrics_page "50" "100") in
  let pass1 (url : string) :=
    if decide (url = a) then Py.Raised "timed out" else half in
  let pass2 (url : string) := half in
  let s0 := (add_substation (add_substation init a).2 b).2 in
  let s1 := poll_all_substations_once float_of_digits s0 pass1
              (λ _, Qc_of_Z 5) in
  let s2 := poll_all_substations_once float_of_digits s1 pass2
              (λ _, Qc_of_Z 10) in
  substations s2 = [a; b]
  ∧ Dict.keys (substation_metrics s2) = [b; a]
  ∧ (load_percentage <$> Dict.get a (substation_metrics s2))
    = (load_percentage <$> Dict.get b (substation_metrics s2))
  ∧ spec_select_registry_order s2 = Some a
  ∧ get_least_loaded_substation s2 = Some b
  ∧ get_least_loaded_substation s2 ≠ spec_select_registry_order s2.
Proof.
  intros a b half pass1 pass2 s0 s1 s2.
  assert (Hspec : spec_select_registry_order s2 = Some a)
    by (vm_compute; reflexivity).
  assert (Hcode : get_least_loaded_substation s2 = Some b)
    by (vm_compute; reflexivity).
  split_and!; [reflexivity | reflexivity | reflexivity | done | done |].
  rewrite Hspec, Hcode. discriminate.
Qed.

(** C6, amended.  On a non-empty cache in which no cached percentage is
    NaN, the selector returns the key of the first item, in the iteration
    order of the cache dictionary and not of the registry list, among the
    items with the lowest percentage: every item before it is strictly
    higher, every item after it is at least as high.  The result depends on
    the cache alone, so the balancer returns this endpoint at every call on
    a state with this cache. *)
Theorem select_tie_break_cache_order_without_nan cache :
  cache ≠ [] → TelemetryFloats.no_nan cache →
  (∃ l1 url m l2,
     cache = l1 ++ (url, m) :: l2
     ∧ TelemetryFloats.get_least_loaded_substation cache = Some url
     ∧ Forall (λ e, PyFloat.lt (TelemetryFloats.load_percentage m)
                      (TelemetryFloats.load_percentage e.2) = true) l1
     ∧ Forall (λ e, PyFloat.le (TelemetryFloats.load_percentage m)
                      (TelemetryFloats.load_percentage e.2) = true) l2)
  ∧ (∀ st, TelemetryFloats.of_exact_cache (substation_metrics st) = cache →
           get_least_loaded_substation st
           = TelemetryFloats.get_least_loaded_substation cache).
Proof.
  intros Hne Hnan. split; [by apply FloatFacts.float_select_first_lowest |].
  intros st <-. symmetry. apply FloatFacts.select_of_exact.
Qed.

Lemma select_tie_break_cache_order_without_nan_witness :
  let entry p := {| current_load := Qc_of_Z p; total_capacity := Qc_of_Z 100;
                    load_percentage := Qc_of_Z p; last_updated := Qc_of_Z 5 |} in
  let st := {| substations := ["a"; "b"; "c"];
               substation_metrics :=
                 [("c", entry 70); ("b", entry 40); ("a", entry 40)] |} in
  let cache := TelemetryFloats.of_exact_cache (substation_metrics st) in
  get_least_loaded_substation st = Some "b"
  ∧ get_least_loaded_substation st
    = TelemetryFloats.get_least_loaded_substation cache
  ∧ ∃ l1 url m l2,
      cache = l1 ++ (url, m) :: l2
      ∧ TelemetryFloats.get_least_loaded_substation cache = Some url
      ∧ Forall (λ e, PyFloat.lt (TelemetryFloats.load_percentage m)
                       (TelemetryFloats.load_percentage e.2) = true) l1
      ∧ Forall (λ e, PyFloat.le (TelemetryFloats.load_percentage m)
                       (TelemetryFloats.load_percentage e.2) = true) l2.
Proof.
  intros entry st cache.
  destruct (select_tie_break_cache_order_without_nan cache) as [Hfirst Hsame].
  - discriminate.
  - repeat constructor.
  - split_and!; [vm_compute; reflexivity | by apply Hsame | exact Hfirst].
Defined.

(** ** The registry *)

Lemma contains_true url (xs : list string) : url ∈ xs → Py.contains url xs = true.
Proof. intros H. by apply bool_decide_eq_true_2. Qed.

Lemma contains_false url (xs : list string) : url ∉ xs → Py.contains url xs = false.
Proof. intros H. by apply bool_decide_eq_false_2. Qed.

Lemma elem_of_remove_ne url url' xs :
  url' ≠ url → url' ∈ Py.remove url xs ↔ url' ∈ xs.
Proof.
  intros Hne. induction xs as [| y ys IH]; simpl; [done |].
  destruct (decide (y = url)) as [-> | Hy].
  - rewrite elem_of_cons. split; [by right | by intros [? | ?]].
  - rewrite !elem_of_cons, IH. done.
Qed.

Lemma not_elem_of_remove url xs : NoDup xs → url ∉ Py.remove url xs.
Proof.
  induction 1 as [| y ys Hy Hnd IH]; simpl; [apply not_elem_of_nil |].
  destruct (decide (y = url)) as [-> | Hne]; [done |].
  rewrite elem_of_cons. intros [-> | Hin]; [done | by apply IH].
Qed.

Lemma NoDup_remove url xs : NoDup xs → NoDup (Py.remove url xs).
Proof.
  induction 1 as [| y ys Hy Hnd IH]; simpl; [constructor |].
  destruct (decide (y = url)) as [-> | Hne]; [done |].
  constructor; [| done]. by rewrite elem_of_remove_ne.
Qed.

Lemma remove_present st url :
  url ∈ substations st →
  remove_substation st url =
    (true, {| substations := Py.remove url (substations st);
              substation_metrics :=
                if bool_decide (is_Some (Dict.get url (substation_metrics st)))
                then Dict.del url (substation_metrics st)
                else substation_metrics st |}).
Proof. intros H. unfold remove_substation. by rewrite contains_true. Qed.

(** The registry list stays free of duplicates under every operation. *)
Lemma NoDup_init : NoDup (substations init).
Proof. constructor. Qed.

Lemma NoDup_add st url :
  NoDup (substations st) → NoDup (substations (add_substation st url).2).
Proof.
  intros Hnd. unfold add_substation.
  destruct (decide (url ∈ substations st)) as [Hin | Hout].
  - by rewrite contains_true.
  - rewrite contains_false by done. simpl.
    apply NoDup_app. split_and!; [done | | apply NoDup_singleton].
    intros x Hx ->%list_elem_of_singleton. done.
Qed.

Lemma NoDup_remove_substation st url :
  NoDup (substations st) → NoDup (substations (remove_substation st url).2).
Proof.
  intros Hnd. unfold remove_substation.
  destruct (Py.contains url (substations st)); simpl; [| done].
  by apply NoDup_remove.
Qed.

Lemma NoDup_poll float st url resp now :
  NoDup (substations st) →
  NoDup (substations (poll_substation_metrics float st url resp now).2).
Proof.
  intros Hnd. unfold poll_substation_metrics.
  destruct resp as [code text |]; [| done].
  case_bool_decide; [| done].
  by destruct (parse_metrics float text) as [[cl tc] |].
Qed.

(** C7. On a registry (a list without duplicates, as the operations keep
    it): [add_substation] returns [False] and changes nothing when the
    endpoint is present, and returns [True] and appends it when absent;
    [remove_substation] returns [False] and changes nothing when the
    endpoint is absent; when present it returns [True], takes the endpoint
    out of the registry and its entry out of the cache, and touches no
    other endpoint; a second removal then returns [False], and adding the
    endpoint again returns [True] with no cached entry for it. *)
Theorem registry_add_remove st url :
  NoDup (substations st) →
  (url ∈ substations st → add_substation st url = (false, st))
  ∧ (url ∉ substations st →
       (add_substation st url).1 = true
       ∧ substations (add_substation st url).2 = substations st ++ [url]
       ∧ substation_metrics (add_substation st url).2 = substation_metrics st)
  ∧ (url ∉ substations st → remove_substation st url = (false, st))
  ∧ (url ∈ substations st →
       let r := remove_substation st url in
       r.1 = true
       ∧ (url ∉ substations r.2)
       ∧ Dict.get url (substation_metrics r.2) = None
       ∧ (∀ url', url' ≠ url →
            (url' ∈ substations r.2 ↔ url' ∈ substations st)
            ∧ Dict.get url' (substation_metrics r.2) =
              Dict.get url' (substation_metrics st))
       ∧ remove_substation r.2 url = (false, r.2)
       ∧ (add_substation r.2 url).1 = true
       ∧ url ∈ substations (add_substation r.2 url).2
       ∧ Dict.get url (substation_metrics (add_substation r.2 url).2) = None).
Proof.
  intros Hnd. split_and!.
  - intros Hin. unfold add_substation. by rewrite contains_true.
  - intros Hout. unfold add_substation. by rewrite contains_false.
  - intros Hout. unfold remove_substation. by rewrite contains_false.
  - intros Hin r. subst r. rewrite (remove_present st url Hin).
    cbn [fst snd].
    assert (Hgone : url ∉ Py.remove url (substations st))
      by by apply not_elem_of_remove.
    split_and!.
    + done.
    + done.
    + simpl. case_bool_decide as Hsome; [apply DictFacts.get_del_eq |].
      by apply eq_None_not_Some.
    + intros url' Hne. simpl. split; [by apply elem_of_remove_ne |].
      case_bool_decide; [by apply DictFacts.get_del_ne | done].
    + unfold remove_substation. simpl. by rewrite contains_false.
    + unfold add_substation. simpl. by rewrite contains_false.
    + unfold add_substation. simpl. rewrite contains_false by done. simpl.
      apply elem_of_app. right. apply list_elem_of_here.
    + unfold add_substation. simpl. rewrite contains_false by done. simpl.
      case_bool_decide as Hsome; [apply DictFacts.get_del_eq |].
      by apply eq_None_not_Some.
Qed.

Lemma registry_add_remove_witness :
  let a := "http://substation1:5000" in
  let b := "http://substation2:5000" in
  let s0 := (add_substation (add_substation init a).2 b).2 in
  let s1 := (poll_substation_metrics float_of_digits s0 a
               (Py.Response 200 (metrics_page "20" "100")) (Qc_of_Z 5)).2 in
  add_substation s1 a = (false, s1)
  ∧ (remove_substation s1 a).1 = true
  ∧ (remove_substation (remove_substation s1 a).2 a).1 = false
  ∧ (add_substation (remove_substation s1 a).2 a).1 = true
  ∧ Dict.get a (substation_metrics
                  (add_substation (remove_substation s1 a).2 a).2) = None.
Proof.
  intros a b s0 s1.
  assert (Hnd : NoDup (substations s1)).
  { apply NoDup_poll, NoDup_add, NoDup_add, NoDup_init. }
  destruct (registry_add_remove s1 a Hnd) as (Hadd & _ & _ & Hrem).
  assert (Hin : a ∈ substations s1) by apply list_elem_of_here.
  destruct (Hrem Hin) as (H1 & _ & _ & _ & H2 & H3 & _ & H4).
  split_and!; [by apply Hadd | exact H1 | by rewrite H2 | exact H3 | exact H4].
Defined.

End LoadBalancerSpec.

(** * Properties of the session tracker *)

Module ChargeRequestServiceSpec.
Import ChargeRequestService.

Lemma append_assoc (a b c : string) : (a +:+ b) +:+ c = a +:+ (b +:+ c).
Proof.
  induction a as [| x a IH]; [done |].
  change (String x ((a +:+ b) +:+ c) = String x (a +:+ (b +:+ c))).
  by f_equal.
Qed.

(** The URL of the DELETE, spelled out. *)
Lemma stop_url (i : option Z) (session_id : string) :
  ("http://substation_" +:+ render_id i +:+ ":5000") +:+ "/charge/" +:+ session_id
  = "http://substation_"
    +:+ match i with Some z => pretty z | None => "None" end
    +:+ ":5000/charge/" +:+ session_id.
Proof.
  change ("http://substation_" +:+ render_id i +:+ ":5000")
    with ("http://substation_" +:+ (render_id i +:+ ":5000")).
  rewrite !append_assoc. by destruct i.
Qed.

(** C8. [stop_charging_session] on an id that is not tracked returns the
    error ['Session not found'] and leaves the tracked sessions as they
    were.  On a tracked id it sends one DELETE, to
    [http://substation_<id>:5000/charge/<session_id>] for the substation id
    of the record ([None] printed as such), and the answer to that URL alone
    decides the outcome: on status 200 it returns the stopped status and
    removes that record and no other; on another status, or when the request
    raises, it returns an error and leaves the tracked sessions, the record
    included, as they were. *)
Theorem stop_charging_session_cases (active_sessions : gmap string session)
    session_id http_delete :
  (active_sessions !! session_id = None →
     stop_charging_session active_sessions session_id http_delete =
       (Error "Session not found", active_sessions))
  ∧ (∀ s, active_sessions !! session_id = Some s →
       let owner := match substation_id s with
                    | Some z => pretty z
                    | None => "None"
                    end in
       let url := "http://substation_" +:+ owner +:+ ":5000/charge/"
                  +:+ session_id in
       let r := stop_charging_session active_sessions session_id http_delete in
       (∀ http_delete', http_delete' url = http_delete url →
          stop_charging_session active_sessions session_id http_delete' = r)
       ∧ (∀ text, http_delete url = Py.Response 200 text →
            r.1 = Stopped session_id
            ∧ r.2 = delete session_id active_sessions
            ∧ r.2 !! session_id = None
            ∧ ∀ k, k ≠ session_id → r.2 !! k = active_sessions !! k)
       ∧ (∀ status_code text,
            http_delete url = Py.Response status_code text →
            status_code ≠ 200 →
            r = (Error ("Failed to stop session: " +:+ pretty status_code),
                 active_sessions)
            ∧ r.2 !! session_id = Some s)
       ∧ (∀ msg, http_delete url = Py.Raised msg →
            r = (Error msg, active_sessions)
            ∧ r.2 !! session_id = Some s)).
Proof.
  split.
  - intros Hk. unfold stop_charging_session. by rewrite Hk.
  - intros s Hk owner url r. subst r url owner. unfold stop_charging_session.
    rewrite Hk. cbv zeta. rewrite !stop_url. split_and!.
    + intros http_delete' Hsame. by rewrite Hsame.
    + intros text ->. rewrite bool_decide_eq_true_2 by done. simpl.
      split_and!; [done | done | apply lookup_delete_eq |].
      intros k Hne. by apply lookup_delete_ne.
    + intros code text -> Hne. by rewrite bool_decide_eq_false_2.
    + by intros msg ->.
Qed.

Lemma stop_charging_session_cases_witness :
  let record := {| ev_id := "EV_1"; requested_kw := 22;
                   substation_id := Some 1234; start_time := Qc_of_Z 5;
                   duration_minutes := None |} in
  let tracked : gmap string session := {[ "1234_EV_1_5" := record ]} in
  let url := "http://substation_1234:5000/charge/1234_EV_1_5" in
  let only_owner_up (u : string) :=
    if decide (u = url) then Py.Response 200 "{}"
    else Py.Raised "connection refused" in
  let only_owner_down (u : string) :=
    if decide (u = url) then Py.Raised "timed out" else Py.Response 200 "{}" in
  let only_owner_busy (u : string) :=
    if decide (u = url) then Py.Response 500 "{}" else Py.Response 200 "{}" in
  stop_charging_session tracked "1234_EV_9_5" only_owner_up =
    (Error "Session not found", tracked)
  ∧ (stop_charging_session tracked "1234_EV_1_5" only_owner_up).1
    = Stopped "1234_EV_1_5"
  ∧ (stop_charging_session tracked "1234_EV_1_5" only_owner_up).2
      !! "1234_EV_1_5" = None
  ∧ stop_charging_session tracked "1234_EV_1_5" only_owner_down
    = (Error "timed out", tracked)
  ∧ stop_charging_session tracked "1234_EV_1_5" only_owner_busy
    = (Error "Failed to stop session: 500", tracked).
Proof.
  intros record tracked url only_owner_up only_owner_down only_owner_busy.
  destruct (stop_charging_session_cases tracked "1234_EV_9_5" only_owner_up)
    as [Hno _].
  destruct (stop_charging_session_cases tracked "1234_EV_1_5" only_owner_up)
    as [_ Hup].
  destruct (stop_charging_session_cases tracked "1234_EV_1_5" only_owner_down)
    as [_ Hdown].
  destruct (stop_charging_session_cases tracked "1234_EV_1_5" only_owner_busy)
    as [_ Hbusy].
  split_and!.
  - apply Hno. reflexivity.
  - destruct (Hup record eq_refl) as (_ & Hok & _).
    destruct (Hok "{}" eq_refl) as (Hret & _). exact Hret.
  - destruct (Hup record eq_refl) as (_ & Hok & _).
    destruct (Hok "{}" eq_refl) as (_ & _ & Hgone & _). exact Hgone.
  - destruct (Hdown record eq_refl) as (_ & _ & _ & Hraise).
    destruct (Hraise "timed out" eq_refl) as [Hret _]. exact Hret.
  - destruct (Hbusy record eq_refl) as (_ & _ & Hstatus & _).
    destruct (Hstatus 500 "{}" eq_refl) as [Hret _]; [discriminate |].
    exact Hret.
Defined.

End ChargeRequestServiceSpec.

(** * Further properties of the substation *)

Module SubstationRuns.
Import Substation.

(** ** Sums and sizes *)

Lemma sessions_kw_nonneg (m : gmap string session) :
  map_Forall (λ _ s, 0 <= requested_kw s) m → 0 <= sessions_kw m.
Proof.
  induction m as [| k s m Hk IH] using map_ind; intros Hall.
  - by rewrite SubstationSpec.sessions_kw_empty.
  - rewrite SubstationSpec.sessions_kw_insert_fresh by done.
    apply map_Forall_insert in Hall as [Hs Hm]; [| done].
    specialize (IH Hm). simpl in Hs. lia.
Qed.

Lemma size_insert_le (m : gmap string session) k s :
  (size (<[k := s]> m) ≤ S (size m))%nat.
Proof.
  rewrite map_size_insert. destruct (m !! k); simpl; lia.
Qed.

Lemma size_delete_present (m : gmap string session) k s :
  m !! k = Some s → S (size (delete k m)) = size m.
Proof.
  intros Hk. rewrite map_size_delete, Hk.
  assert (size m ≠ 0%nat); [| lia].
  intros Hz. apply map_size_empty_iff in Hz. by rewrite Hz in Hk.
Qed.

(** The session id is never the empty string. *)
Lemma make_session_id_nonempty sid ev now : make_session_id sid ev now ≠ EmptyString.
Proof.
  unfold make_session_id. destruct (pretty sid) as [| c s]; simpl; discriminate.
Qed.

Lemma truthy_make_session_id sid ev now :
  Wire.truthy (Some (make_session_id sid ev now)) = true.
Proof.
  pose proof (make_session_id_nonempty sid ev now) as H.
  by destruct (make_session_id sid ev now).
Qed.

(** ** Start and stop, composed *)

(** X1. With an integer load and an integer [requested_kw], an accepted
    [start_charging] whose session id is not yet in the session set, followed
    by [stop_charging] of the returned id, gives back the state before the
    start: load, charger count and session set. *)
Theorem start_then_stop_restores st ev kw now1 now2 :
  current_load st + kw <= max_capacity st →
  charging_sessions st !! make_session_id (substation_id st) ev now1 = None →
  ∃ session_id,
    (start_charging st ev kw now1 now2).1 = Some session_id
    ∧ stop_charging (start_charging st ev kw now1 now2).2 session_id = (true, st).
Proof.
  intros Hok Hfresh. rewrite SubstationSpec.start_charging_accept by done.
  eexists. split; [done |]. simpl.
  unfold stop_charging. simpl. rewrite lookup_insert_eq. simpl.
  rewrite delete_insert_id by done. destruct st as [i c l a m]. simpl.
  do 2 f_equal; lia.
Qed.

Lemma start_then_stop_restores_witness :
  let st := (start_charging (init 1234 100) "EV_1" 60 (Qc_of_Z 5) (Qc_of_Z 5)).2 in
  ∃ session_id,
    (start_charging st "EV_2" 22 (Qc_of_Z 7) (Qc_of_Z 7)).1 = Some session_id
    ∧ stop_charging (start_charging st "EV_2" 22 (Qc_of_Z 7) (Qc_of_Z 7)).2
        session_id = (true, st).
Proof.
  intros st.
  apply (start_then_stop_restores st "EV_2" 22 (Qc_of_Z 7) (Qc_of_Z 7));
    [vm_compute; discriminate | reflexivity].
Defined.

(** X2. Stopping the same session id a second time returns [False] and
    changes nothing, whatever the first stop did. *)
Theorem stop_charging_twice st session_id :
  stop_charging (stop_charging st session_id).2 session_id
  = (false, (stop_charging st session_id).2).
Proof.
  unfold stop_charging at 2 3.
  destruct (charging_sessions st !! session_id) as [s |] eqn:Hs; simpl.
  - unfold stop_charging. simpl. by rewrite lookup_delete_eq.
  - unfold stop_charging. by rewrite Hs.
Qed.

(** ** Invariants along a run *)

Lemma frame_step st o :
  substation_id (step st o) = substation_id st
  ∧ max_capacity (step st o) = max_capacity st.
Proof.
  destruct o as [ev kw now1 now2 | sid]; simpl.
  - unfold start_charging. by case_bool_decide.
  - unfold stop_charging. by destruct (charging_sessions st !! sid).
Qed.

Lemma chargers_step st o :
  Z.of_nat (size (charging_sessions st)) <= active_chargers st →
  Z.of_nat (size (charging_sessions (step st o))) <= active_chargers (step st o).
Proof.
  intros H. destruct o as [ev kw now1 now2 | sid]; simpl.
  - unfold start_charging. case_bool_decide; simpl; [| done].
    pose proof (size_insert_le (charging_sessions st)
                  (make_session_id (substation_id st) ev now1)
                  {| ev_id := ev; requested_kw := kw;
                     start_time := now2; status := "charging" |}).
    lia.
  - unfold stop_charging.
    destruct (charging_sessions st !! sid) as [s |] eqn:Hs; simpl; [| done].
    pose proof (size_delete_present _ _ _ Hs). lia.
Qed.

Lemma chargers_run ops : ∀ st,
  Z.of_nat (size (charging_sessions st)) <= active_chargers st →
  Z.of_nat (size (charging_sessions (run st ops))) <= active_chargers (run st ops).
Proof.
  induction ops as [| o ops IH]; intros st H; [done |].
  simpl. apply IH. by apply chargers_step.
Qed.

Lemma chargers_fresh_run ops : ∀ st,
  fresh_ids st ops = true →
  active_chargers st = Z.of_nat (size (charging_sessions st)) →
  active_chargers (run st ops) = Z.of_nat (size (charging_sessions (run st ops))).
Proof.
  induction ops as [| o ops IH]; intros st Hfr H; [done |].
  simpl in Hfr. apply andb_true_iff in Hfr as [Ho Hfr].
  simpl. apply IH; [done |]. clear IH Hfr.
  destruct o as [ev kw now1 now2 | sid]; simpl.
  - destruct (decide (current_load st + kw <= max_capacity st)) as [Hok | Hno].
    + rewrite SubstationSpec.start_charging_accept by done. simpl.
      rewrite bool_decide_eq_true_2 in Ho by done. simpl in Ho.
      destruct (charging_sessions st !! _) eqn:Hk; [done |].
      rewrite map_size_insert_None by done. lia.
    + by rewrite SubstationSpec.start_charging_reject.
  - unfold stop_charging.
    destruct (charging_sessions st !! sid) as [s |] eqn:Hs; simpl; [| done].
    pose proof (size_delete_present _ _ _ Hs). lia.
Qed.

(** X3. Along every sequence of starts and stops from the initial state
    the substation keeps its id and capacity, and [active_chargers] is at
    least the number of sessions in the session set; it is exactly that
    number when no accepted start computes an id already in the set. *)
Theorem active_chargers_counts_sessions sid cap ops :
  substation_id (run (init sid cap) ops) = sid
  ∧ max_capacity (run (init sid cap) ops) = cap
  ∧ Z.of_nat (size (charging_sessions (run (init sid cap) ops)))
    <= active_chargers (run (init sid cap) ops)
  ∧ (fresh_ids (init sid cap) ops = true →
       active_chargers (run (init sid cap) ops)
       = Z.of_nat (size (charging_sessions (run (init sid cap) ops)))).
Proof.
  assert (Hframe : ∀ ops st,
            substation_id (run st ops) = substation_id st
            ∧ max_capacity (run st ops) = max_capacity st).
  { clear. induction ops as [| o ops IH]; intros st; [done |].
    simpl. destruct (IH (step st o)) as [-> ->]. apply frame_step. }
  destruct (Hframe ops (init sid cap)) as [Hid Hcap].
  split_and!; [done | done | |].
  - by apply chargers_run.
  - intros Hfr. by apply chargers_fresh_run.
Qed.

Lemma active_chargers_counts_sessions_witness :
  let t := Qc_of_Z 5 in
  let ops := [Start "EV_1" 60 t t; Start "EV_2" 30 t t; Stop "1234_EV_1_5";
              Start "EV_3" 70 t t] in
  active_chargers (run (init 1234 100) ops) = 2
  ∧ active_chargers (run (init 1234 100) ops)
    = Z.of_nat (size (charging_sessions (run (init 1234 100) ops))).
Proof.
  intros t ops. split; [reflexivity |].
  apply (active_chargers_counts_sessions 1234 100 ops). reflexivity.
Defined.

(** Every session holds a non-negative amount and the sessions together
    hold no more than the load. *)
Lemma covered_step st o :
  match o with Start _ kw _ _ => 0 <= kw | Stop _ => True end →
  map_Forall (λ _ s, 0 <= requested_kw s) (charging_sessions st) →
  sessions_kw (charging_sessions st) <= current_load st →
  map_Forall (λ _ s, 0 <= requested_kw s) (charging_sessions (step st o))
  ∧ sessions_kw (charging_sessions (step st o)) <= current_load (step st o).
Proof.
  intros Hkw Hall Hle. destruct o as [ev kw now1 now2 | sid]; simpl.
  - unfold start_charging. case_bool_decide; simpl; [| done].
    split; [by apply map_Forall_insert_2 |].
    destruct (charging_sessions st !! make_session_id (substation_id st) ev now1)
      as [s0 |] eqn:Hk.
    + rewrite (SubstationSpec.sessions_kw_insert_present _ _ _ s0) by done.
      specialize (Hall _ _ Hk). simpl in *. lia.
    + rewrite SubstationSpec.sessions_kw_insert_fresh by done. simpl. lia.
  - unfold stop_charging.
    destruct (charging_sessions st !! sid) as [s |] eqn:Hs; simpl; [| done].
    split; [by apply map_Forall_delete |].
    rewrite (SubstationSpec.sessions_kw_delete _ _ _ Hs). lia.
Qed.

Lemma covered_run ops : ∀ st,
  nonneg_requests ops = true →
  map_Forall (λ _ s, 0 <= requested_kw s) (charging_sessions st) →
  sessions_kw (charging_sessions st) <= current_load st →
  map_Forall (λ _ s, 0 <= requested_kw s) (charging_sessions (run st ops))
  ∧ sessions_kw (charging_sessions (run st ops)) <= current_load (run st ops).
Proof.
  induction ops as [| o ops IH]; intros st Hnn Hall Hle; [done |].
  simpl in Hnn. apply andb_true_iff in Hnn as [Ho Hnn].
  simpl. destruct (covered_step st o) as [Hall' Hle']; [| done | done |].
  - destruct o; [by apply bool_decide_eq_true in Ho | done].
  - by apply IH.
Qed.

(** X4. When every start asks for a non-negative integer amount, then
    along every sequence of starts and stops from the initial state,
    colliding session ids included, the sessions in the set sum to at least
    0 and to at most the load: capacity can stay allocated without a
    session, but no session holds capacity the load does not count. *)
Theorem load_covers_sessions sid cap ops :
  nonneg_requests ops = true →
  0 <= sessions_kw (charging_sessions (run (init sid cap) ops))
  ∧ sessions_kw (charging_sessions (run (init sid cap) ops))
    <= current_load (run (init sid cap) ops).
Proof.
  intros Hnn.
  destruct (covered_run ops (init sid cap) Hnn) as [Hall Hle].
  - apply map_Forall_empty.
  - done.
  - split; [by apply sessions_kw_nonneg | done].
Qed.

Lemma load_covers_sessions_witness :
  let t := Qc_of_Z 5 in
  let st := run (init 1234 100)
              [Start "EV_1" 10 t t; Start "EV_1" 30 t t; Stop "1234_EV_1_5"] in
  current_load st = 10
  ∧ 0 <= sessions_kw (charging_sessions st)
  ∧ sessions_kw (charging_sessions st) <= current_load st.
Proof.
  intros t st. split; [reflexivity |].
  apply (load_covers_sessions 1234 100
           [Start "EV_1" 10 t t; Start "EV_1" 30 t t; Stop "1234_EV_1_5"]).
  reflexivity.
Defined.

(** ** Status and views *)



Lemma start_charging_route_fits st ev kw now1 now2 :
  ev ≠ EmptyString →
  current_load st + default 10 kw <= max_capacity st →
  start_charging_route st
    (Some {| Wire.ev_id := Some ev; Wire.requested_kw := kw |}) now1 now2
  = ((200, {| Wire.session_id :=
                Some (make_session_id (substation_id st) ev now1);
              Wire.status := Some "started";
              Wire.substation_id := Some (substation_id st);
              Wire.error := None |}),
     (start_charging st ev (default 10 kw) now1 now2).2).
Proof.
  intros Hne Hcap. unfold start_charging_route. cbn [Wire.ev_id Wire.requested_kw].
  assert (Wire.truthy (Some ev) = true) as -> by by destruct ev.
  cbn [negb default from_option id]. cbv zeta.
  rewrite SubstationSpec.start_charging_accept by done.
  cbn [fst snd]. by rewrite truthy_make_session_id.
Qed.

Lemma start_charging_route_full st ev kw now1 now2 :
  ev ≠ EmptyString →
  ¬ current_load st + default 10 kw <= max_capacity st →
  start_charging_route st
    (Some {| Wire.ev_id := Some ev; Wire.requested_kw := kw |}) now1 now2
  = ((503, Wire.error_reply "Insufficient capacity"), st).
Proof.
  intros Hne Hcap. unfold start_charging_route. cbn [Wire.ev_id Wire.requested_kw].
  assert (Wire.truthy (Some ev) = true) as -> by by destruct ev.
  cbn [negb default from_option id]. cbv zeta.
  by rewrite SubstationSpec.start_charging_reject.
Qed.

(** X6. On a body whose [ev_id] is a string or absent and whose
    [requested_kw] is an integer or absent, the view of [POST /charge]
    answers 500 without a JSON object and 400 when [ev_id] is absent or
    empty, both without touching the state.  Otherwise it asks for
    [requested_kw], or 10 kW when the key is absent:
    when that fits it answers 200 with the session id and the substation id
    and the state is the one [start_charging] leaves; when it does not fit
    it answers 503 and the state is unchanged. *)
Theorem start_charging_route_codes st data now1 now2 :
  (data = None →
     start_charging_route st data now1 now2
     = ((500, Wire.error_reply "Internal server error"), st))
  ∧ (∀ d, data = Some d → Wire.truthy (Wire.ev_id d) = false →
       start_charging_route st data now1 now2
       = ((400, Wire.error_reply "ev_id is required"), st))
  ∧ (∀ d ev, data = Some d → Wire.ev_id d = Some ev → ev ≠ EmptyString →
       let kw := default 10 (Wire.requested_kw d) in
       (current_load st + kw <= max_capacity st →
          start_charging_route st data now1 now2
          = ((200, {| Wire.session_id :=
                        Some (make_session_id (substation_id st) ev now1);
                      Wire.status := Some "started";
                      Wire.substation_id := Some (substation_id st);
                      Wire.error := None |}),
             (start_charging st ev kw now1 now2).2)
          ∧ current_load (start_charging_route st data now1 now2).2
            = current_load st + kw)
       ∧ (¬ current_load st + kw <= max_capacity st →
            start_charging_route st data now1 now2
            = ((503, Wire.error_reply "Insufficient capacity"), st))).
Proof.
  split_and!.
  - by intros ->.
  - intros d -> Hev. unfold start_charging_route. by rewrite Hev.
  - intros d ev -> Hev Hne kw. subst kw. destruct d as [e k].
    simpl in Hev. subst e. cbn [Wire.requested_kw]. split; intros Hcap.
    + rewrite start_charging_route_fits by done. split; [done |].
      cbn [snd]. by rewrite SubstationSpec.start_charging_accept.
    + by apply start_charging_route_full.
Qed.

Lemma start_charging_route_codes_witness :
  let st := (start_charging (init 1234 100) "EV_1" 85 (Qc_of_Z 5) (Qc_of_Z 5)).2 in
  let body ev kw := Some {| Wire.ev_id := ev; Wire.requested_kw := kw |} in
  (start_charging_route st (body (Some "") (Some 5)) (Qc_of_Z 6) (Qc_of_Z 6)).1.1 = 400
  ∧ (start_charging_route st (body (Some "EV_2") None) (Qc_of_Z 6) (Qc_of_Z 6)).1.1 = 200
  ∧ current_load
      (start_charging_route st (body (Some "EV_2") None) (Qc_of_Z 6) (Qc_of_Z 6)).2 = 95
  ∧ (start_charging_route st (body (Some "EV_2") (Some 22)) (Qc_of_Z 6) (Qc_of_Z 6)).1.1
    = 503.
Proof.
  intros st body.
  destruct (start_charging_route_codes st (body (Some "") (Some 5))
              (Qc_of_Z 6) (Qc_of_Z 6)) as (_ & H400 & _).
  destruct (start_charging_route_codes st (body (Some "EV_2") None)
              (Qc_of_Z 6) (Qc_of_Z 6)) as (_ & _ & Hten).
  destruct (start_charging_route_codes st (body (Some "EV_2") (Some 22))
              (Qc_of_Z 6) (Qc_of_Z 6)) as (_ & _ & Hbig).
  split_and!.
  - by rewrite (H400 _ eq_refl eq_refl).
  - destruct (Hten _ "EV_2" eq_refl eq_refl) as [Hok _]; [discriminate |].
    destruct Hok as [-> _]; [vm_compute; discriminate | reflexivity].
  - destruct (Hten _ "EV_2" eq_refl eq_refl) as [Hok _]; [discriminate |].
    destruct Hok as [_ ->]; [vm_compute; discriminate | reflexivity].
  - destruct (Hbig _ "EV_2" eq_refl eq_refl) as [_ Hno]; [discriminate |].
    rewrite Hno; [reflexivity | vm_compute; intros H; by apply H].
Defined.

End SubstationRuns.

(** * Further properties of the load balancer *)

Module DictKeys.
Section dict.
Context {V : Type}.
Implicit Types (d : list (string * V)) (k : string) (v : V).

Lemma elem_of_keys_get d k : k ∈ Dict.keys d ↔ is_Some (Dict.get k d).
Proof.
  unfold Dict.keys. induction d as [| [k' v'] d IH]; simpl.
  - split; [by intros ?%elem_of_nil | by intros [? ?]].
  - rewrite elem_of_cons. simpl. destruct (decide (k' = k)) as [-> | Hne].
    + split; [by eexists | by left].
    + rewrite <- IH. split; [by intros [-> | ?] | by right].
Qed.

Lemma elem_of_items_keys d k v : (k, v) ∈ d → k ∈ Dict.keys d.
Proof.
  intros H. unfold Dict.keys.
  by apply (list_elem_of_fmap_2 fst d (k, v)).
Qed.

Lemma keys_set_present d k v :
  k ∈ Dict.keys d → Dict.keys (Dict.set k v d) = Dict.keys d.
Proof.
  unfold Dict.keys. induction d as [| [k' v'] d IH]; simpl.
  - by intros ?%elem_of_nil.
  - destruct (decide (k' = k)) as [-> | Hne]; [done |].
    intros [-> | Hin]%elem_of_cons; [done |]. csimpl. f_equal. by apply IH.
Qed.

Lemma keys_set_absent d k v :
  k ∉ Dict.keys d → Dict.keys (Dict.set k v d) = Dict.keys d ++ [k].
Proof.
  unfold Dict.keys. induction d as [| [k' v'] d IH]; simpl; [done |].
  intros Hout. apply not_elem_of_cons in Hout as [Hne Hout].
  rewrite decide_False by done. csimpl. f_equal. by apply IH.
Qed.

Lemma elem_of_keys_del d k x :
  x ∈ Dict.keys (Dict.del k d) ↔ x ≠ k ∧ x ∈ Dict.keys d.
Proof.
  unfold Dict.keys. induction d as [| [k' v'] d IH]; simpl.
  - rewrite elem_of_nil. tauto.
  - destruct (decide (k' = k)) as [-> | Hne]; simpl.
    + rewrite IH, elem_of_cons. split; [tauto |].
      intros [Hx [-> | Hin]]; done.
    + rewrite !elem_of_cons, IH. split.
      * intros [-> | [? ?]]; [split; [done | by left] | split; [done | by right]].
      * intros [Hx [-> | Hin]]; [by left | by right].
Qed.

Lemma NoDup_keys_del d k : NoDup (Dict.keys d) → NoDup (Dict.keys (Dict.del k d)).
Proof.
  unfold Dict.keys. induction d as [| [k' v'] d IH]; simpl; [done |].
  intros [Hout Hnd]%NoDup_cons.
  destruct (decide (k' = k)) as [-> | Hne]; [by apply IH |].
  simpl. apply NoDup_cons. split; [| by apply IH].
  intros Hin. apply (elem_of_keys_del d k k') in Hin as [_ Hin]. done.
Qed.

Lemma NoDup_keys_set d k v : NoDup (Dict.keys d) → NoDup (Dict.keys (Dict.set k v d)).
Proof.
  intros Hnd. destruct (decide (k ∈ Dict.keys d)) as [Hin | Hout].
  - by rewrite keys_set_present.
  - rewrite keys_set_absent by done. apply NoDup_app. split_and!; [done | |].
    + by intros x Hx ->%list_elem_of_singleton.
    + apply NoDup_singleton.
Qed.

Lemma elem_of_keys_set d k v x :
  x ∈ Dict.keys (Dict.set k v d) ↔ x = k ∨ x ∈ Dict.keys d.
Proof.
  destruct (decide (k ∈ Dict.keys d)) as [Hin | Hout].
  - rewrite keys_set_present by done. split; [by right | by intros [-> | ?]].
  - rewrite keys_set_absent, elem_of_app, list_elem_of_singleton by done. tauto.
Qed.

End dict.
End DictKeys.

Module Poller.
Import LoadBalancer.

(** ** One poll *)

(** A poll changes nothing, or assigns one entry under the polled key. *)
Lemma poll_cases float st url resp now :
  (poll_substation_metrics float st url resp now).2 = st
  ∨ ∃ m, (poll_substation_metrics float st url resp now).2
         = {| substations := substations st;
              substation_metrics := Dict.set url m (substation_metrics st) |}.
Proof.
  unfold poll_substation_metrics. destruct resp as [code text |]; [| by left].
  case_bool_decide; [| by left].
  destruct (parse_metrics float text) as [[cl tc] |]; [| by left].
  right. by eexists.
Qed.

Lemma poll_registry float st url resp now :
  substations (poll_substation_metrics float st url resp now).2 = substations st.
Proof. by destruct (poll_cases float st url resp now) as [-> | [m ->]]. Qed.

Lemma poll_get_other float st url url' resp now :
  url' ≠ url →
  Dict.get url' (substation_metrics (poll_substation_metrics float st url resp now).2)
  = Dict.get url' (substation_metrics st).
Proof.
  intros Hne. destruct (poll_cases float st url resp now) as [-> | [m ->]]; [done |].
  simpl. by apply DictFacts.get_set_ne.
Qed.

Lemma poll_unreadable float st url resp now :
  unreadable float resp → (poll_substation_metrics float st url resp now).2 = st.
Proof.
  intros Hbad. unfold poll_substation_metrics.
  destruct resp as [code text |]; [| done].
  case_bool_decide as Hcode; [| done]. subst code.
  destruct (parse_metrics float text) as [[cl tc] |] eqn:Hparse; [| done].
  by destruct (Hbad text cl tc).
Qed.

(** X7. A successful poll keeps the iteration order of the cache: it
    leaves the order of the keys as it is when the endpoint is cached
    already, and puts the endpoint last when it is not. *)
Theorem poll_keeps_cache_order float st url text now cl tc :
  parse_metrics float text = Some (cl, tc) →
  let st' := (poll_substation_metrics float st url (Py.Response 200 text) now).2 in
  (url ∈ Dict.keys (substation_metrics st) →
     Dict.keys (substation_metrics st') = Dict.keys (substation_metrics st))
  ∧ (url ∉ Dict.keys (substation_metrics st) →
       Dict.keys (substation_metrics st')
       = Dict.keys (substation_metrics st) ++ [url]).
Proof.
  intros Hparse st'. subst st'.
  rewrite (LoadBalancerSpec.poll_success _ _ _ _ _ _ _ Hparse). simpl. split.
  - apply DictKeys.keys_set_present.
  - apply DictKeys.keys_set_absent.
Qed.

Lemma poll_keeps_cache_order_witness :
  let a := "http://substation1:5000" in
  let b := "http://substation2:5000" in
  let poll s url load now :=
    (poll_substation_metrics float_of_digits s url
       (Py.Response 200 (metrics_page load "100")) now).2 in
  let s2 := poll (poll init a "70" (Qc_of_Z 5)) b "30" (Qc_of_Z 5) in
  Dict.keys (substation_metrics (poll s2 a "10" (Qc_of_Z 10))) = [a; b].
Proof.
  intros a b poll s2.
  destruct (poll_keeps_cache_order float_of_digits s2 a (metrics_page "10" "100")
              (Qc_of_Z 10) (Qc_of_Z 10) (Qc_of_Z 100) eq_refl) as [Hsame _].
  transitivity (Dict.keys (substation_metrics s2)); [| reflexivity].
  apply Hsame. apply list_elem_of_here.
Defined.

(** ** A pass over a snapshot *)

Lemma snapshot_cons float st url l net now :
  poll_snapshot float st (url :: l) net now
  = poll_snapshot float
      (poll_substation_metrics float st url (net url) (now url)).2 l net now.
Proof. reflexivity. Qed.

Lemma snapshot_registry float l net now : ∀ st,
  substations (poll_snapshot float st l net now) = substations st.
Proof.
  induction l as [| u l IH]; intros st; [done |].
  rewrite snapshot_cons, IH. apply poll_registry.
Qed.

Lemma snapshot_get_outside float l net now url : ∀ st,
  url ∉ l →
  Dict.get url (substation_metrics (poll_snapshot float st l net now))
  = Dict.get url (substation_metrics st).
Proof.
  induction l as [| u l IH]; intros st Hout; [done |].
  apply not_elem_of_cons in Hout as [Hne Hout].
  rewrite snapshot_cons, IH by done. by apply poll_get_other.
Qed.

Lemma snapshot_get_unreadable float l net now url : ∀ st,
  unreadable float (net url) →
  Dict.get url (substation_metrics (poll_snapshot float st l net now))
  = Dict.get url (substation_metrics st).
Proof.
  induction l as [| u l IH]; intros st Hbad; [done |].
  rewrite snapshot_cons, IH by done.
  destruct (decide (url = u)) as [-> | Hne].
  - by rewrite poll_unreadable.
  - by apply poll_get_other.
Qed.

Lemma snapshot_get_read float l net now url text cl tc : ∀ st,
  NoDup l → url ∈ l →
  net url = Py.Response 200 text →
  parse_metrics float text = Some (cl, tc) →
  Dict.get url (substation_metrics (poll_snapshot float st l net now))
  = Some {| current_load := cl; total_capacity := tc;
            load_percentage := percentage cl tc; last_updated := now url |}.
Proof.
  induction l as [| u l IH]; intros st Hnd Hin Hnet Hparse.
  - by apply elem_of_nil in Hin.
  - apply NoDup_cons in Hnd as [Hu Hnd]. rewrite snapshot_cons.
    destruct (decide (url = u)) as [-> | Hne].
    + rewrite snapshot_get_outside by done. rewrite Hnet.
      rewrite (LoadBalancerSpec.poll_success _ _ _ _ _ _ _ Hparse). simpl.
      apply DictFacts.get_set_eq.
    + apply elem_of_cons in Hin as [-> | Hin]; [done |]. by apply IH.
Qed.

(** X8. One pass of the poller over the registry leaves the registry as it
    is and decides every cache entry by the answer of its own endpoint
    alone: a registered endpoint that answers 200 with a readable page gets
    the entry read from that page, stamped with the time of its poll; an
    endpoint that is not registered, or whose answer is anything else,
    keeps the entry it had, or none. *)
Theorem poll_pass_entries float st net now url :
  NoDup (substations st) →
  let st' := poll_all_substations_once float st net now in
  substations st' = substations st
  ∧ (∀ text cl tc,
       url ∈ substations st →
       net url = Py.Response 200 text →
       parse_metrics float text = Some (cl, tc) →
       Dict.get url (substation_metrics st')
       = Some {| current_load := cl; total_capacity := tc;
                 load_percentage := percentage cl tc;
                 last_updated := now url |})
  ∧ (url ∉ substations st →
       Dict.get url (substation_metrics st') = Dict.get url (substation_metrics st))
  ∧ (unreadable float (net url) →
       Dict.get url (substation_metrics st') = Dict.get url (substation_metrics st)).
Proof.
  intros Hnd st'. subst st'.
  change (poll_all_substations_once float st net now)
    with (poll_snapshot float st (substations st) net now).
  split_and!.
  - apply snapshot_registry.
  - intros text cl tc Hin Hnet Hparse. by eapply snapshot_get_read.
  - apply snapshot_get_outside.
  - apply snapshot_get_unreadable.
Qed.

Lemma poll_pass_entries_witness :
  let a := "http://substation1:5000" in
  let b := "http://substation2:5000" in
  let s0 := (add_substation (add_substation init a).2 b).2 in
  let net1 (url : string) := Py.Response 200 (metrics_page "40" "100") in
  let s1 := poll_all_substations_once float_of_digits s0 net1 (λ _, Qc_of_Z 5) in
  let net2 (url : string) :=
    if decide (url = a) then Py.Raised "timed out"
    else Py.Response 200 (metrics_page "60" "120") in
  let s2 := poll_all_substations_once float_of_digits s1 net2 (λ _, Qc_of_Z 10) in
  Dict.get a (substation_metrics s2) = Dict.get a (substation_metrics s1)
  ∧ Dict.get b (substation_metrics s2)
    = Some {| current_load := Qc_of_Z 60; total_capacity := Qc_of_Z 120;
              load_percentage := percentage (Qc_of_Z 60) (Qc_of_Z 120);
              last_updated := Qc_of_Z 10 |}.
Proof.
  intros a b s0 net1 s1 net2 s2.
  assert (Hnd : NoDup (substations s1)).
  { unfold s1, poll_all_substations_once.
    change (NoDup (substations (poll_snapshot float_of_digits s0 (substations s0)
                                  net1 (λ _, Qc_of_Z 5)))).
    rewrite snapshot_registry.
    apply LoadBalancerSpec.NoDup_add, LoadBalancerSpec.NoDup_add,
      LoadBalancerSpec.NoDup_init. }
  split.
  - apply (poll_pass_entries float_of_digits s1 net2 (λ _, Qc_of_Z 10) a Hnd).
    intros text cl tc Hnet. discriminate Hnet.
  - destruct (poll_pass_entries float_of_digits s1 net2 (λ _, Qc_of_Z 10) b Hnd)
      as (_ & Hread & _).
    apply (Hread (metrics_page "60" "120")); [| reflexivity | reflexivity].
    apply list_elem_of_further, list_elem_of_here.
Defined.

End Poller.

Module Registry.
Import LoadBalancer.

(** ** Registry and cache stay in step *)

Lemma consistent_init : consistent init.
Proof.
  split_and!; [constructor | constructor |].
  intros url Hin. by apply elem_of_nil in Hin.
Qed.

Lemma consistent_add st url : consistent st → consistent (add_substation st url).2.
Proof.
  intros (Hreg & Hkeys & Hsub). split_and!.
  - by apply LoadBalancerSpec.NoDup_add.
  - unfold add_substation. by destruct (negb _).
  - unfold add_substation. destruct (negb _); simpl; [| done].
    intros u Hu. apply elem_of_app. left. by apply Hsub.
Qed.

Lemma consistent_remove st url :
  consistent st → consistent (remove_substation st url).2.
Proof.
  intros (Hreg & Hkeys & Hsub). split_and!.
  - by apply LoadBalancerSpec.NoDup_remove_substation.
  - unfold remove_substation. destruct (Py.contains _ _); simpl; [| done].
    case_bool_decide; [by apply DictKeys.NoDup_keys_del | done].
  - unfold remove_substation. destruct (Py.contains _ _); simpl; [| done].
    intros u Hu. assert (u ≠ url ∧ u ∈ Dict.keys (substation_metrics st)) as [Hne Hin].
    { case_bool_decide as Hsome.
      - by apply DictKeys.elem_of_keys_del in Hu.
      - split; [| done]. intros ->. by apply Hsome, DictKeys.elem_of_keys_get. }
    apply LoadBalancerSpec.elem_of_remove_ne; [done |]. by apply Hsub.
Qed.

Lemma consistent_poll float st url resp now :
  url ∈ substations st → consistent st →
  consistent (poll_substation_metrics float st url resp now).2.
Proof.
  intros Hin (Hreg & Hkeys & Hsub).
  destruct (Poller.poll_cases float st url resp now) as [-> | [m ->]]; [done |].
  split_and!; simpl.
  - done.
  - by apply DictKeys.NoDup_keys_set.
  - intros u [-> | Hu]%DictKeys.elem_of_keys_set; [done | by apply Hsub].
Qed.

Lemma consistent_snapshot float l net now : ∀ st,
  (∀ url, url ∈ l → url ∈ substations st) → consistent st →
  consistent (poll_snapshot float st l net now).
Proof.
  induction l as [| u l IH]; intros st Hl Hc; [done |].
  rewrite Poller.snapshot_cons. apply IH.
  - intros url Hin. rewrite Poller.poll_registry.
    by apply Hl, list_elem_of_further.
  - apply consistent_poll; [apply Hl, list_elem_of_here | done].
Qed.

Lemma consistent_step float st o : consistent st → consistent (step float st o).
Proof.
  intros Hc. destruct o as [url | url | net now]; simpl.
  - by apply consistent_add.
  - by apply consistent_remove.
  - by apply (consistent_snapshot float (substations st) net now st).
Qed.

Lemma consistent_run float ops : ∀ st, consistent st → consistent (run float st ops).
Proof.
  induction ops as [| o ops IH]; intros st Hc; [done |].
  simpl. by apply IH, consistent_step.
Qed.

Lemma select_is_cached st url :
  get_least_loaded_substation st = Some url →
  url ∈ Dict.keys (substation_metrics st).
Proof.
  intros Hsel.
  destruct (substation_metrics st) as [| x xs] eqn:Hcache.
  { unfold get_least_loaded_substation in Hsel. by rewrite Hcache in Hsel. }
  destruct (LoadBalancerSpec.select_lowest st) as (sel & m & Hsel' & Hin & _).
  { by rewrite Hcache. }
  rewrite Hsel in Hsel'. injection Hsel' as ->. rewrite <- Hcache.
  by eapply DictKeys.elem_of_items_keys.
Qed.

(** X9. After any sequence of registrations, removals and polling passes
    from the initial state, no endpoint is listed twice in the registry or
    in the cache and every cached endpoint is registered.  So the selector
    only returns registered endpoints, and [get_status] never reports more
    [active_substations] than [substations]. *)
Theorem run_keeps_cache_within_registry float ops :
  let st := run float init ops in
  consistent st
  ∧ (∀ url, get_least_loaded_substation st = Some url → url ∈ substations st)
  ∧ (∀ polling_interval running,
       (status_active_substations (get_status st polling_interval running)
        ≤ status_substations (get_status st polling_interval running))%nat).
Proof.
  intros st.
  assert (Hc : consistent st) by apply consistent_run, consistent_init.
  split_and!; [done | |].
  - intros url Hsel. destruct Hc as (_ & _ & Hsub).
    by apply Hsub, select_is_cached.
  - intros polling_interval running. simpl.
    destruct Hc as (_ & Hkeys & Hsub).
    replace (length (substation_metrics st))
      with (length (Dict.keys (substation_metrics st)))
      by apply length_fmap.
    by apply submseteq_length, NoDup_submseteq.
Qed.

(** X10. A removal that falls between the snapshot of a polling pass and
    the poll of the removed endpoint does not keep that endpoint out of the
    cache: if its answer is readable, the pass caches it again although it
    is no longer registered, and the selector returns it whenever its
    percentage is below every other cached one. *)
Theorem removal_during_pass_is_cached_again float st url net now text cl tc :
  NoDup (substations st) →
  url ∈ substations st →
  net url = Py.Response 200 text →
  parse_metrics float text = Some (cl, tc) →
  let snapshot := substations st in
  let st' := poll_snapshot float (remove_substation st url).2 snapshot net now in
  (url ∉ substations st')
  ∧ Dict.get url (substation_metrics st')
    = Some {| current_load := cl; total_capacity := tc;
              load_percentage := percentage cl tc; last_updated := now url |}
  ∧ ¬ consistent st'
  ∧ ((∀ e, e ∈ substation_metrics st' → e.1 ≠ url →
           (percentage cl tc < load_percentage e.2)%Qc) →
       get_least_loaded_substation st' = Some url).
Proof.
  intros Hnd Hin Hnet Hparse snapshot st'. subst snapshot st'.
  set (st' := poll_snapshot float (remove_substation st url).2 (substations st) net now).
  assert (Hreg : url ∉ substations st').
  { unfold st'. rewrite Poller.snapshot_registry.
    rewrite LoadBalancerSpec.remove_present by done. simpl.
    by apply LoadBalancerSpec.not_elem_of_remove. }
  assert (Hget : Dict.get url (substation_metrics st')
                 = Some {| current_load := cl; total_capacity := tc;
                           load_percentage := percentage cl tc;
                           last_updated := now url |})
    by by eapply Poller.snapshot_get_read.
  split_and!; [done | done | |].
  - intros (_ & _ & Hsub). apply Hreg, Hsub, DictKeys.elem_of_keys_get.
    rewrite Hget. by eexists.
  - intros Hlow.
    assert (Hne : substation_metrics st' ≠ []).
    { intros Hnil. rewrite Hnil in Hget. discriminate Hget. }
    destruct (LoadBalancerSpec.select_lowest st' Hne) as (sel & m & Hsel & Hm & Hmin).
    rewrite Hsel. f_equal. destruct (decide (sel = url)) as [| Hother]; [done |].
    exfalso. specialize (Hlow _ Hm Hother). simpl in Hlow.
    assert (Hitem : ∃ m0, (url, m0) ∈ substation_metrics st'
                          ∧ load_percentage m0 = percentage cl tc).
    { clear -Hget. induction (substation_metrics st') as [| [k v] d IH];
        simpl in Hget; [discriminate Hget |].
      destruct (decide (k = url)) as [-> | Hk].
      - injection Hget as ->. eexists. split; [apply list_elem_of_here | done].
      - destruct (IH Hget) as (m0 & H0 & H1). exists m0.
        split; [by apply list_elem_of_further | done]. }
    destruct Hitem as (m0 & Hm0 & Hp0).
    specialize (Hmin _ _ Hm0). rewrite Hp0 in Hmin.
    by eapply Qclt_not_le.
Qed.

Lemma removal_during_pass_is_cached_again_witness :
  let a := "http://substation1:5000" in
  let st := (add_substation init a).2 in
  let net (url : string) := Py.Response 200 (metrics_page "40" "100") in
  let st' := poll_snapshot float_of_digits (remove_substation st a).2
               (substations st) net (λ _, Qc_of_Z 5) in
  substations st' = []
  ∧ get_least_loaded_substation st' = Some a.
Proof.
  intros a st net st'. split; [reflexivity |].
  destruct (removal_during_pass_is_cached_again float_of_digits st a net
              (λ _, Qc_of_Z 5) (metrics_page "40" "100") (Qc_of_Z 40) (Qc_of_Z 100))
    as (_ & _ & _ & Hsel).
  - apply LoadBalancerSpec.NoDup_add, LoadBalancerSpec.NoDup_init.
  - apply list_elem_of_here.
  - reflexivity.
  - reflexivity.
  - apply Hsel. intros e He Hne.
    apply list_elem_of_singleton in He. subst e. by destruct Hne.
Defined.

(** X11. Once a registered endpoint is removed, the selector does not
    return it, whatever the cache held. *)
Theorem removed_endpoint_is_not_selected st url :
  url ∈ substations st →
  get_least_loaded_substation (remove_substation st url).2 ≠ Some url.
Proof.
  intros Hin Hsel. apply select_is_cached in Hsel.
  rewrite LoadBalancerSpec.remove_present in Hsel by done. simpl in Hsel.
  case_bool_decide as Hsome.
  - apply DictKeys.elem_of_keys_del in Hsel as [Hne _]. done.
  - by apply Hsome, DictKeys.elem_of_keys_get.
Qed.

Lemma removed_endpoint_is_not_selected_witness :
  let a := "http://substation1:5000" in
  let b := "http://substation2:5000" in
  let s0 := (add_substation (add_substation init a).2 b).2 in
  let net (url : string) :=
    Py.Response 200 (metrics_page (if decide (url = a) then "10" else "90") "100") in
  let s1 := poll_all_substations_once float_of_digits s0 net (λ _, Qc_of_Z 5) in
  get_least_loaded_substation s1 = Some a
  ∧ get_least_loaded_substation (remove_substation s1 a).2 ≠ Some a.
Proof.
  intros a b s0 net s1. split; [vm_compute; reflexivity |].
  apply (removed_endpoint_is_not_selected s1 a). apply list_elem_of_here.
Defined.

End Registry.

Module Routing.
Import LoadBalancer.

(** The two ways through [route_charging_request]. *)
Lemma route_no_target st ev kw post :
  Wire.truthy (get_least_loaded_substation st) = false →
  route_charging_request st ev kw post = (None, Some "No available substations").
Proof. intros H. unfold route_charging_request. by rewrite H. Qed.

Lemma route_target st ev kw post url :
  get_least_loaded_substation st = Some url → url ≠ EmptyString →
  route_charging_request st ev kw post
  = match post (url +:+ "/charge")
            {| Wire.ev_id := Some ev; Wire.requested_kw := Some kw |} with
    | Wire.JsonResponse status_code json =>
        if bool_decide (status_code = 200) then
          match json with
          | inl result => (Some result, None)
          | inr msg => (None, Some msg)
          end
        else (None, Some ("Substation error: " +:+ pretty status_code))
    | Wire.JsonRaised msg => (None, Some msg)
    end.
Proof.
  intros Hsel Hne. unfold route_charging_request. rewrite Hsel.
  assert (Wire.truthy (Some url) = true) as -> by by destruct url.
  reflexivity.
Qed.

(** X12. With nothing cached [route_charging_request] returns the error
    ['No available substations'] whatever the network would answer.
    Otherwise it posts once, to [/charge] of the selected endpoint, and the
    outcome is decided by that answer alone, with no second endpoint tried:
    on status 200 with a body that is a JSON object it returns that object
    and no error; on status 200 with a body that cannot be decoded, on any
    other status and on an exception it returns an error and no result. *)
Theorem route_uses_selected_endpoint_only st ev kw post :
  let body := {| Wire.ev_id := Some ev; Wire.requested_kw := Some kw |} in
  let r := route_charging_request st ev kw post in
  (substation_metrics st = [] →
     r = (None, Some "No available substations"))
  ∧ (∀ url, get_least_loaded_substation st = Some url → url ≠ EmptyString →
       (∀ post', post' (url +:+ "/charge") body = post (url +:+ "/charge") body →
                 route_charging_request st ev kw post' = r)
       ∧ (∀ result,
            post (url +:+ "/charge") body = Wire.JsonResponse 200 (inl result) →
            r = (Some result, None))
       ∧ (∀ msg,
            post (url +:+ "/charge") body = Wire.JsonResponse 200 (inr msg) →
            r = (None, Some msg))
       ∧ (∀ status_code json,
            post (url +:+ "/charge") body = Wire.JsonResponse status_code json →
            status_code ≠ 200 →
            r = (None, Some ("Substation error: " +:+ pretty status_code)))
       ∧ (∀ msg,
            post (url +:+ "/charge") body = Wire.JsonRaised msg →
            r = (None, Some msg))).
Proof.
  intros body r. subst r. split_and!.
  - intros Hempty. apply route_no_target.
    by rewrite (LoadBalancerSpec.select_empty st Hempty).
  - intros url Hsel Hne. rewrite (route_target st ev kw post url) by done.
    fold body. split_and!.
    + intros post' Hsame. rewrite (route_target st ev kw post' url) by done.
      fold body. by rewrite Hsame.
    + by intros result ->.
    + by intros msg ->.
    + intros code json -> Hcode. by rewrite bool_decide_eq_false_2.
    + by intros msg ->.
Qed.

Lemma route_uses_selected_endpoint_only_witness :
  let a := "http://substation1:5000" in
  let b := "http://substation2:5000" in
  let s0 := (add_substation (add_substation init a).2 b).2 in
  let net (url : string) :=
    Py.Response 200 (metrics_page (if decide (url = a) then "10" else "90") "100") in
  let s1 := poll_all_substations_once float_of_digits s0 net (λ _, Qc_of_Z 5) in
  let post (url : string) (body : Wire.charge_request) :=
    if decide (url = a +:+ "/charge") then Wire.JsonRaised "timed out"
    else Wire.JsonResponse 200
           (inl {| Wire.session_id := Some "2_EV_1_5"; Wire.status := Some "started";
                   Wire.substation_id := Some 2; Wire.error := None |}) in
  route_charging_request s0 "EV_1" 22 post = (None, Some "No available substations")
  ∧ route_charging_request s1 "EV_1" 22 post = (None, Some "timed out").
Proof.
  intros a b s0 net s1 post.
  destruct (route_uses_selected_endpoint_only s0 "EV_1" 22 post) as (Hnone & _).
  destruct (route_uses_selected_endpoint_only s1 "EV_1" 22 post) as (_ & Hsel).
  split; [by apply Hnone |].
  destruct (Hsel a) as (_ & _ & _ & _ & Hraised);
    [vm_compute; reflexivity | discriminate |].
  by apply Hraised.
Defined.

(** X18. Routing composed with the substation behind the selected
    endpoint.  When the POST is answered by that substation's view of
    [/charge], the balancer returns the substation's session id when the
    request fits the substation's remaining capacity, and the error
    ['Substation error: 503'] when it does not; the cached percentages, by
    which the endpoint was selected, play no part in the outcome. *)
Theorem route_outcome_is_the_substation_decision st sub ev kw post url now1 now2 :
  let body := {| Wire.ev_id := Some ev; Wire.requested_kw := Some kw |} in
  let view := Substation.start_charging_route sub (Some body) now1 now2 in
  get_least_loaded_substation st = Some url → url ≠ EmptyString →
  ev ≠ EmptyString →
  post (url +:+ "/charge") body = Wire.JsonResponse view.1.1 (inl view.1.2) →
  (Substation.current_load sub + kw <= Substation.max_capacity sub →
     route_charging_request st ev kw post
     = (Some {| Wire.session_id :=
                  Some (Substation.make_session_id
                          (Substation.substation_id sub) ev now1);
                Wire.status := Some "started";
                Wire.substation_id := Some (Substation.substation_id sub);
                Wire.error := None |}, None))
  ∧ (¬ Substation.current_load sub + kw <= Substation.max_capacity sub →
       route_charging_request st ev kw post
       = (None, Some "Substation error: 503")).
Proof.
  intros body view Hsel Hurl Hev Hpost.
  rewrite (route_target st ev kw post url) by done. fold body. rewrite Hpost.
  subst view body. split; intros Hcap.
  - by rewrite SubstationRuns.start_charging_route_fits.
  - by rewrite SubstationRuns.start_charging_route_full.
Qed.

Lemma route_outcome_is_the_substation_decision_witness :
  let a := "http://substation1:5000" in
  let lb := (poll_substation_metrics float_of_digits (add_substation init a).2 a
               (Py.Response 200 (metrics_page "0" "100")) (Qc_of_Z 1)).2 in
  let sub := (Substation.start_charging (Substation.init 1234 100) "EV_1" 85
                (Qc_of_Z 2) (Qc_of_Z 2)).2 in
  let view := Substation.start_charging_route sub
                (Some {| Wire.ev_id := Some "EV_2"; Wire.requested_kw := Some 22 |})
                (Qc_of_Z 5) (Qc_of_Z 5) in
  let post (url : string) (body : Wire.charge_request) :=
    Wire.JsonResponse view.1.1 (inl view.1.2) in
  get_least_loaded_substation lb = Some a
  ∧ route_charging_request lb "EV_2" 22 post = (None, Some "Substation error: 503").
Proof.
  intros a lb sub view post.
  assert (Hsel : get_least_loaded_substation lb = Some a) by (vm_compute; reflexivity).
  split; [exact Hsel |].
  destruct (route_outcome_is_the_substation_decision lb sub "EV_2" 22 post a
              (Qc_of_Z 5) (Qc_of_Z 5)) as [_ Hfull];
    [exact Hsel | discriminate | discriminate | reflexivity |].
  apply Hfull. vm_compute. intros H. by apply H.
Defined.

End Routing.

Module MetricsPage.
Import LoadBalancer.

Lemma parse_line_other float acc line :
  gauge_line line = false → parse_line float acc line = Some acc.
Proof.
  unfold gauge_line, parse_line. intros [H1 H2]%orb_false_iff. by rewrite H1, H2.
Qed.

(** X13. Only the lines that start with ['current_load '] or
    ['total_capacity '] count in a metrics page: the loop reads the same
    pair, or fails alike, on the page and on the page reduced to those
    lines. *)
Theorem parse_metrics_reads_gauge_lines_only float :
  (∀ lines acc,
     parse_lines float acc lines
     = parse_lines float acc (filter (λ line, gauge_line line = true) lines))
  ∧ (∀ text,
       parse_metrics float text
       = parse_lines float (0%Qc, 1%Qc)
           (filter (λ line, gauge_line line = true) (Py.split "010" text))).
Proof.
  assert (Hlines : ∀ lines acc,
            parse_lines float acc lines
            = parse_lines float acc (filter (λ line, gauge_line line = true) lines)).
  { induction lines as [| line lines IH]; intros acc; [done |].
    rewrite filter_cons. destruct (gauge_line line) eqn:Hg.
    - rewrite decide_True by done. simpl.
      destruct (parse_line float acc line) as [acc' |]; simpl; [apply IH | done].
    - rewrite decide_False by done. simpl.
      rewrite parse_line_other by done. simpl. apply IH. }
  split; [done |]. intros text. apply Hlines.
Qed.

(** X14. A line that starts with one of the two gauge names and whose
    second space-separated field is not a number makes the whole poll fail,
    wherever the line stands and whatever the other lines hold: the poll
    returns [False] and the state is unchanged. *)
Theorem unreadable_gauge_line_fails_poll float st url now before bad after :
  gauge_line bad = true →
  (∀ field, Py.split " " bad !! 1%nat = Some field → float field = None) →
  (∀ text, Py.split "010" text = before ++ bad :: after →
     poll_substation_metrics float st url (Py.Response 200 text) now = (false, st)).
Proof.
  intros Hg Hbad text Hlines.
  assert (Hline : ∀ acc, parse_line float acc bad = None).
  { intros acc. unfold gauge_line in Hg. unfold parse_line.
    destruct (Py.startswith "current_load " bad).
    - destruct (Py.split " " bad !! 1%nat) as [field |] eqn:Hf; [| done].
      simpl. by rewrite (Hbad field).
    - cbn [orb] in Hg. rewrite Hg.
      destruct (Py.split " " bad !! 1%nat) as [field |] eqn:Hf; [| done].
      simpl. by rewrite (Hbad field). }
  assert (Hparse : ∀ l acc, parse_lines float acc (l ++ bad :: after) = None).
  { induction l as [| x l IH]; intros acc; simpl.
    - by rewrite Hline.
    - destruct (parse_line float acc x); simpl; [apply IH | done]. }
  unfold poll_substation_metrics. simpl. unfold parse_metrics.
  by rewrite Hlines, Hparse.
Qed.

Lemma unreadable_gauge_line_fails_poll_witness :
  let st := (add_substation init "http://substation1:5000").2 in
  let text := "current_load 5" +:+ newline +:+ "total_capacity n/a" +:+ newline
              +:+ "current_load 7" in
  poll_substation_metrics float_of_digits st "http://substation1:5000"
    (Py.Response 200 text) (Qc_of_Z 5) = (false, st).
Proof.
  intros st text.
  apply (unreadable_gauge_line_fails_poll float_of_digits st _ (Qc_of_Z 5)
           ["current_load 5"] "total_capacity n/a" ["current_load 7"]).
  - reflexivity.
  - intros field [= <-]. reflexivity.
  - reflexivity.
Defined.

End MetricsPage.

(** * Further properties of the session tracker *)

Module Tracking.
Import ChargeRequestService.

(** The URL [stop_charging_session] sends the DELETE to. *)
Lemma stop_tracked (m : gmap string session) sid s http_delete :
  m !! sid = Some s →
  stop_charging_session m sid http_delete
  = match http_delete (("http://substation_" +:+ render_id (substation_id s)
                        +:+ ":5000") +:+ "/charge/" +:+ sid) with
    | Py.Response status_code _ =>
        if bool_decide (status_code = 200) then (Stopped sid, delete sid m)
        else (Error ("Failed to stop session: " +:+ pretty status_code), m)
    | Py.Raised msg => (Error msg, m)
    end.
Proof. intros H. unfold stop_charging_session. by rewrite H. Qed.

Lemma submit_recorded lb (m : gmap string session) ev kw duration post now result sid :
  post (lb +:+ "/charge") {| Wire.ev_id := Some ev; Wire.requested_kw := Some kw |}
  = Wire.JsonResponse 200 (inl result) →
  Wire.session_id result = Some sid → sid ≠ EmptyString →
  submit_charging_request lb m ev kw duration post now
  = (result,
     <[sid := {| ev_id := ev; requested_kw := kw;
                 substation_id := Wire.substation_id result;
                 start_time := now; duration_minutes := duration |}]> m).
Proof.
  intros Hpost Hsid Hne. unfold submit_charging_request.
  rewrite Hpost. rewrite bool_decide_eq_true_2 by done. rewrite Hsid.
  assert (Wire.truthy (Some sid) = true) as -> by by destruct sid.
  reflexivity.
Qed.

(** X15. Over the answers of the balancer whose body, when it is a JSON
    object, has a string or no [session_id]: when the answer is a status 200
    with an object whose [session_id] is a non-empty string,
    [submit_charging_request] returns that object and tracks, under that id,
    the EV, the kW and the duration of the request with the [substation_id]
    of the answer, leaving every other record as it was.  When the answer is
    anything else (another status, an exception, a body that cannot be
    decoded, an absent or empty [session_id]), it returns an object with an
    ['error'] key and the tracked sessions are unchanged. *)
Theorem submit_tracks_only_on_session_id lb (m : gmap string session)
    ev kw duration post now :
  let body := {| Wire.ev_id := Some ev; Wire.requested_kw := Some kw |} in
  let r := submit_charging_request lb m ev kw duration post now in
  (∀ result sid,
     post (lb +:+ "/charge") body = Wire.JsonResponse 200 (inl result) →
     Wire.session_id result = Some sid → sid ≠ EmptyString →
     r.1 = result
     ∧ r.2 !! sid = Some {| ev_id := ev; requested_kw := kw;
                            substation_id := Wire.substation_id result;
                            start_time := now; duration_minutes := duration |}
     ∧ ∀ k, k ≠ sid → r.2 !! k = m !! k)
  ∧ ((∀ result, post (lb +:+ "/charge") body = Wire.JsonResponse 200 (inl result) →
                Wire.truthy (Wire.session_id result) = false) →
       r.2 = m ∧ is_Some (Wire.error r.1)).
Proof.
  intros body r. subst r. split.
  - intros result sid Hpost Hsid Hne.
    rewrite (submit_recorded lb m ev kw duration post now result sid) by done.
    simpl. split_and!; [done | apply lookup_insert_eq |].
    intros k Hk. by apply lookup_insert_ne.
  - intros Hno. unfold submit_charging_request. fold body.
    destruct (post (lb +:+ "/charge") body) as [code [result | msg] | msg] eqn:Hpost;
      try case_bool_decide; simpl; try (split; [done | by eexists]).
    subst code. rewrite (Hno result eq_refl). simpl. split; [done | by eexists].
Qed.

Lemma submit_tracks_only_on_session_id_witness :
  let lb := "http://load_balancer:5001" in
  let answer := {| Wire.session_id := Some "1234_EV_1_5";
                   Wire.status := Some "started";
                   Wire.substation_id := Some 1234; Wire.error := None |} in
  let up (url : string) (body : Wire.charge_request) :=
    Wire.JsonResponse 200 (inl answer) in
  let full (url : string) (body : Wire.charge_request) :=
    Wire.JsonResponse 503 (inl (Wire.error_reply "No available substations")) in
  (submit_charging_request lb ∅ "EV_1" 22 None up (Qc_of_Z 5)).2 !! "1234_EV_1_5"
  = Some {| ev_id := "EV_1"; requested_kw := 22; substation_id := Some 1234;
            start_time := Qc_of_Z 5; duration_minutes := None |}
  ∧ (submit_charging_request lb ∅ "EV_1" 22 None full (Qc_of_Z 5)).2 = ∅.
Proof.
  intros lb answer up full.
  destruct (submit_tracks_only_on_session_id lb ∅ "EV_1" 22 None up (Qc_of_Z 5))
    as [Hok _].
  destruct (submit_tracks_only_on_session_id lb ∅ "EV_1" 22 None full (Qc_of_Z 5))
    as [_ Hfail].
  split.
  - destruct (Hok answer "1234_EV_1_5") as (_ & Hrec & _);
      [reflexivity | reflexivity | discriminate | exact Hrec].
  - destruct Hfail as [Hsame _]; [intros result Hpost; discriminate Hpost |].
    exact Hsame.
Defined.

(** X16. A submitted session whose id was not tracked before and which is
    then stopped with status 200 leaves the tracked sessions as they were
    before the submission; the DELETE goes to the substation named by the
    [substation_id] of the answer to the submission. *)
Theorem submit_then_stop_restores lb (m : gmap string session)
    ev kw duration post now result sid http_delete text :
  post (lb +:+ "/charge") {| Wire.ev_id := Some ev; Wire.requested_kw := Some kw |}
  = Wire.JsonResponse 200 (inl result) →
  Wire.session_id result = Some sid → sid ≠ EmptyString →
  m !! sid = None →
  http_delete (("http://substation_" +:+ render_id (Wire.substation_id result)
                +:+ ":5000") +:+ "/charge/" +:+ sid) = Py.Response 200 text →
  stop_charging_session
    (submit_charging_request lb m ev kw duration post now).2 sid http_delete
  = (Stopped sid, m).
Proof.
  intros Hpost Hsid Hne Hfresh Hdel.
  rewrite (submit_recorded lb m ev kw duration post now result sid) by done.
  simpl. erewrite stop_tracked by apply lookup_insert_eq. simpl.
  rewrite Hdel. simpl. by rewrite delete_insert_id.
Qed.

Lemma submit_then_stop_restores_witness :
  let lb := "http://load_balancer:5001" in
  let answer := {| Wire.session_id := Some "1234_EV_1_5";
                   Wire.status := Some "started";
                   Wire.substation_id := Some 1234; Wire.error := None |} in
  let post (url : string) (body : Wire.charge_request) :=
    Wire.JsonResponse 200 (inl answer) in
  let http_delete (url : string) :=
    if decide (url = "http://substation_1234:5000/charge/1234_EV_1_5")
    then Py.Response 200 "{}" else Py.Raised "connection refused" in
  stop_charging_session
    (submit_charging_request lb ∅ "EV_1" 22 None post (Qc_of_Z 5)).2
    "1234_EV_1_5" http_delete
  = (Stopped "1234_EV_1_5", ∅).
Proof.
  intros lb answer post http_delete.
  apply (submit_then_stop_restores lb ∅ "EV_1" 22 None post (Qc_of_Z 5) answer
           "1234_EV_1_5" http_delete "{}");
    [reflexivity | reflexivity | discriminate | reflexivity | reflexivity].
Defined.

(** X17. The view of [DELETE /sessions/<id>] answers 404 for every failure,
    an untracked id as well as a substation that cannot be reached or
    answers another status than 200, and 200 only when the record was
    removed.  A failed stop keeps the tracked sessions, so the same call
    succeeds once the substation answers 200. *)
Theorem stop_session_route_codes (m : gmap string session) sid http_delete :
  let r := stop_session_route m sid http_delete in
  (r.1.1 = 200 ∨ r.1.1 = 404)
  ∧ (r.1.1 = 200 → r.1.2 = Stopped sid ∧ r.2 = delete sid m ∧ is_Some (m !! sid))
  ∧ (r.1.1 = 404 →
       r.2 = m
       ∧ ∀ s text http_delete',
           m !! sid = Some s →
           http_delete' (("http://substation_" +:+ render_id (substation_id s)
                          +:+ ":5000") +:+ "/charge/" +:+ sid)
           = Py.Response 200 text →
           stop_session_route r.2 sid http_delete'
           = ((200, Stopped sid), delete sid m)).
Proof.
  intros r. subst r. unfold stop_session_route.
  destruct (m !! sid) as [s |] eqn:Hs.
  - rewrite (stop_tracked m sid s) by done.
    destruct (http_delete _) as [code text |msg]; [case_bool_decide |]; simpl.
    + split_and!; [by left | by intros _; split_and!; [| | eexists] | by intros [=]].
    + split_and!; [by right | by intros [=] |].
      intros _. split; [done |]. intros s' text' http_delete' [= <-] Hdel.
      rewrite (stop_tracked m sid s) by done. rewrite Hdel. done.
    + split_and!; [by right | by intros [=] |].
      intros _. split; [done |]. intros s' text' http_delete' [= <-] Hdel.
      rewrite (stop_tracked m sid s) by done. rewrite Hdel. done.
  - unfold stop_charging_session. rewrite Hs. simpl.
    split_and!; [by right | by intros [=] |].
    intros _. split; [done |]. by intros s' text' http_delete' [=].
Qed.

Lemma stop_session_route_codes_witness :
  let record := {| ev_id := "EV_1"; requested_kw := 22;
                   substation_id := Some 1234; start_time := Qc_of_Z 5;
                   duration_minutes := None |} in
  let tracked : gmap string session := {[ "1234_EV_1_5" := record ]} in
  let down (url : string) := Py.Raised "timed out" in
  let up (url : string) := Py.Response 200 "{}" in
  (stop_session_route tracked "1234_EV_1_5" down).1.1 = 404
  ∧ stop_session_route (stop_session_route tracked "1234_EV_1_5" down).2
      "1234_EV_1_5" up
    = ((200, Stopped "1234_EV_1_5"), delete "1234_EV_1_5" tracked).
Proof.
  intros record tracked down up.
  destruct (stop_session_route_codes tracked "1234_EV_1_5" down) as (_ & _ & H404).
  split; [reflexivity |].
  destruct H404 as [_ Hretry]; [reflexivity |].
  apply (Hretry record "{}" up); reflexivity.
Defined.

End Tracking.
